(** * aws-toolbelt: the ECS console of [aws_toolbelt/main.py]

    A shallow embedding of the Textual application in [main.py]: the two
    module-level boto3 clients, the widgets the handlers read and write
    (two list views, the log widget, the redeploy button, the two reactive
    selections) and the event handlers themselves, written in a small
    state-and-exception monad.  The AWS control plane and the boto3 client
    factory are external: they enter as an environment ([Env]) that answers
    every request the code issues. *)

From stdpp Require Import base option list strings gmap.
From Stdlib Require Import Ascii String.

Local Open Scope string_scope.
Local Open Scope list_scope.

(** ** Python exceptions and results *)

(** The exceptions the modelled code can meet.  [CloudError] stands for any
    exception raised inside a boto3 call (botocore's [ClientError] and the
    like); all of them derive from Python's [Exception]. *)
Inductive exn : Type :=
  | IndexError
  | KeyError (key : string)
  | InvalidRegionError (region : string)
  | CloudError (msg : string).

(** [str(e)], as interpolated by the f-string of [load_logs]. *)
Definition str_exn (e : exn) : string :=
  match e with
  | IndexError => "list index out of range"
  | KeyError key => "'" +:+ key +:+ "'"
  | InvalidRegionError region =>
      "Provided region_name '" +:+ region +:+ "' doesn't match a supported format."
  | CloudError msg => msg
  end.

Inductive result (A : Type) : Type :=
  | Ok (a : A)
  | Raise (e : exn).
Arguments Ok {A} a.
Arguments Raise {A} e.

(** ** Python string and list primitives used by the handlers *)

(** [s.split(sep)] for a one-character separator: the segments between the
    occurrences of [sep], in order; never the empty list. *)
Fixpoint split (sep : ascii) (s : string) : list string :=
  match s with
  | EmptyString => [EmptyString]
  | String c s' =>
      if Ascii.eqb c sep then EmptyString :: split sep s'
      else match split sep s' with
           | seg :: segs => String c seg :: segs
           | [] => [String c EmptyString]
           end
  end.

(** [l[-1]]: the last element, [IndexError] on the empty list. *)
Definition index_last {A} (l : list A) : result A :=
  match last l with
  | Some x => Ok x
  | None => Raise IndexError
  end.

(** [l[0]]. *)
Definition index0 {A} (l : list A) : result A :=
  match l with
  | x :: _ => Ok x
  | [] => Raise IndexError
  end.

(** [d[key]] on a dict field that the response shape marks as not
    required: [KeyError] when the key is absent. *)
Definition getitem {A} (key : string) (field : option A) : result A :=
  match field with
  | Some v => Ok v
  | None => Raise (KeyError key)
  end.

(** [d[key]] on a [Dict[str, str]]. *)
Definition dict_getitem (key : string) (d : gmap string string) : result string :=
  getitem key (d !! key).

(** Truthiness of a [str]: the empty string is false. *)
Definition str_truthy (s : string) : bool :=
  match s with EmptyString => false | String _ _ => true end.

(** Truthiness of an attribute that holds [None] or a [str]. *)
Definition opt_truthy (o : option string) : bool :=
  match o with None => false | Some s => str_truthy s end.

(** The expression [arn.split("/")[-1]] of [load_clusters] and
    [load_services]. *)
Definition last_segment (arn : string) : result string :=
  index_last (split "/" arn).

(** [c] occurs in [s]. *)
Fixpoint occurs (c : ascii) (s : string) : bool :=
  match s with
  | EmptyString => false
  | String c' s' => Ascii.eqb c' c || occurs c s'
  end.

(** ** boto3 clients, requests and response shapes *)

(** A client handle as returned by [boto3.client(service, region_name=...)]. *)
Record Client : Type := mkClient {
  service_name : string;
  region_name : string
}.

#[export] Instance Client_eq_dec : EqDecision Client.
Proof. solve_decision. Defined.

(** The API operations the program calls, with the keyword arguments it
    passes. *)
Inductive Request : Type :=
  | ListClusters
  | ListServices (cluster : string)
  | DescribeServices (cluster : string) (services : list string)
  | DescribeTaskDefinition (taskDefinition : string)
  | UpdateService (cluster service : string) (forceNewDeployment : bool)
  | DescribeLogStreams (logGroupName orderBy : string) (descending : bool)
      (limit : nat)
  | GetLogEvents (logGroupName logStreamName : string) (limit : nat).

(** One request as it left the program: the handle it was issued on and
    its arguments. *)
Record Call : Type := mkCall {
  via : Client;
  req : Request
}.

(** Response shapes, following the typed dicts of [mypy_boto3_ecs] and
    [mypy_boto3_logs] that the source names: the top-level keys of a
    response are always present, the keys of the nested shapes are not
    required ([option]), except [logDriver]. *)
Record LogConfiguration : Type := mkLogConfiguration {
  logDriver : string;
  options : option (gmap string string)
}.

Record ContainerDefinition : Type := mkContainerDefinition {
  container_name : string;
  logConfiguration : option LogConfiguration
}.

Record TaskDefinition : Type := mkTaskDefinition {
  containerDefinitions : list ContainerDefinition
}.

Record Service : Type := mkService {
  service_taskDefinition : option string
}.

Record LogStream : Type := mkLogStream {
  logStreamName : option string
}.

Record OutputLogEvent : Type := mkOutputLogEvent {
  timestamp : nat;
  message : option string
}.

(** The part of each response that the code subscripts. *)
Definition Response (r : Request) : Type :=
  match r with
  | ListClusters => list string                    (* ["clusterArns"] *)
  | ListServices _ => list string                  (* ["serviceArns"] *)
  | DescribeServices _ _ => list Service           (* ["services"] *)
  | DescribeTaskDefinition _ => TaskDefinition     (* ["taskDefinition"] *)
  | UpdateService _ _ _ => unit
  | DescribeLogStreams _ _ _ _ => list LogStream   (* ["logStreams"] *)
  | GetLogEvents _ _ _ => list OutputLogEvent      (* ["events"] *)
  end.

(** The world outside the program.  [respond history c r] is what the call
    [r], issued on handle [c] after the calls [history], returns or raises;
    [valid_region_name] is botocore's check of [region_name] when a client
    is constructed (it does not depend on the service). *)
Record Env : Type := mkEnv {
  respond : list Call -> Client -> forall r : Request, result (Response r);
  valid_region_name : string -> bool
}.

(** ** Widgets and application state *)

(** The children of the two [ListView]s: the plain heading item created in
    [compose], and the two subclasses of [ListItem]. *)
Inductive ListItem : Type :=
  | PlainItem (label : string)
  | ECSClusterItem (cluster_name : string)
  | ECSServiceItem (service_name : string).

(** What has been written to the [Log] widget since it was last cleared. *)
Inductive LogOp : Type :=
  | Write (data : string)
  | WriteLine (line : string).

Record World : Type := mkWorld {
  ecs_client : Client;                (* module global *)
  logs_client : Client;               (* module global *)
  title : string;                     (* App.title *)
  selected_cluster : option string;   (* reactive(None) *)
  selected_service : option string;   (* reactive(None) *)
  btn_cluster : string;               (* RedeploytBtn.cluster *)
  btn_service : string;               (* RedeploytBtn.service *)
  clusters_list : list ListItem;      (* ListView #clusters *)
  services_list : list ListItem;      (* ListView #services *)
  log_widget : list LogOp;            (* Log #logs *)
  calls : list Call                   (* requests issued so far *)
}.

(** The state after import and [compose]: both clients bound to
    ["us-east-1"], the two headings in the list views. *)
Definition initial : World :=
  {| ecs_client := mkClient "ecs" "us-east-1";
     logs_client := mkClient "logs" "us-east-1";
     title := "App";
     selected_cluster := None;
     selected_service := None;
     btn_cluster := "";
     btn_service := "";
     clusters_list := [PlainItem "Clusters"];
     services_list := [PlainItem "Services"];
     log_widget := [];
     calls := [] |}.

(** Assignment to one attribute; the others keep their value. *)
Definition with_ecs_client (c : Client) (w : World) : World :=
  mkWorld c (logs_client w) (title w) (selected_cluster w)
    (selected_service w) (btn_cluster w) (btn_service w) (clusters_list w)
    (services_list w) (log_widget w) (calls w).

Definition with_logs_client (c : Client) (w : World) : World :=
  mkWorld (ecs_client w) c (title w) (selected_cluster w)
    (selected_service w) (btn_cluster w) (btn_service w) (clusters_list w)
    (services_list w) (log_widget w) (calls w).

Definition with_title (t : string) (w : World) : World :=
  mkWorld (ecs_client w) (logs_client w) t (selected_cluster w)
    (selected_service w) (btn_cluster w) (btn_service w) (clusters_list w)
    (services_list w) (log_widget w) (calls w).

Definition with_selected_cluster (c : option string) (w : World) : World :=
  mkWorld (ecs_client w) (logs_client w) (title w) c
    (selected_service w) (btn_cluster w) (btn_service w) (clusters_list w)
    (services_list w) (log_widget w) (calls w).

Definition with_selected_service (s : option string) (w : World) : World :=
  mkWorld (ecs_client w) (logs_client w) (title w) (selected_cluster w)
    s (btn_cluster w) (btn_service w) (clusters_list w)
    (services_list w) (log_widget w) (calls w).

Definition with_btn_cluster (c : string) (w : World) : World :=
  mkWorld (ecs_client w) (logs_client w) (title w) (selected_cluster w)
    (selected_service w) c (btn_service w) (clusters_list w)
    (services_list w) (log_widget w) (calls w).

Definition with_btn_service (s : string) (w : World) : World :=
  mkWorld (ecs_client w) (logs_client w) (title w) (selected_cluster w)
    (selected_service w) (btn_cluster w) s (clusters_list w)
    (services_list w) (log_widget w) (calls w).

Definition with_clusters_list (l : list ListItem) (w : World) : World :=
  mkWorld (ecs_client w) (logs_client w) (title w) (selected_cluster w)
    (selected_service w) (btn_cluster w) (btn_service w) l
    (services_list w) (log_widget w) (calls w).

Definition with_services_list (l : list ListItem) (w : World) : World :=
  mkWorld (ecs_client w) (logs_client w) (title w) (selected_cluster w)
    (selected_service w) (btn_cluster w) (btn_service w) (clusters_list w)
    l (log_widget w) (calls w).

Definition with_log_widget (l : list LogOp) (w : World) : World :=
  mkWorld (ecs_client w) (logs_client w) (title w) (selected_cluster w)
    (selected_service w) (btn_cluster w) (btn_service w) (clusters_list w)
    (services_list w) l (calls w).

(** The world [w] with the call [r] on [c] recorded. *)
Definition record_call (c : Client) (r : Request) (w : World) : World :=
  mkWorld (ecs_client w) (logs_client w) (title w) (selected_cluster w)
    (selected_service w) (btn_cluster w) (btn_service w) (clusters_list w)
    (services_list w) (log_widget w) (calls w ++ [mkCall c r]).

(** ** The monad of handlers: state that survives an exception *)

Definition M (A : Type) : Type := World -> result A * World.

Definition ret {A} (a : A) : M A := fun w => (Ok a, w).

Definition bind {A B} (m : M A) (k : A -> M B) : M B :=
  fun w =>
    match m w with
    | (Ok a, w') => k a w'
    | (Raise e, w') => (Raise e, w')
    end.

Definition raise {A} (e : exn) : M A := fun w => (Raise e, w).

Definition lift {A} (r : result A) : M A := fun w => (r, w).

Definition gets {A} (f : World -> A) : M A := fun w => (Ok (f w), w).

Definition modify (f : World -> World) : M unit := fun w => (Ok tt, f w).

(** [try: m except Exception as e: h e]. *)
Definition try_except {A} (m : M A) (h : exn -> M A) : M A :=
  fun w =>
    match m w with
    | (Ok a, w') => (Ok a, w')
    | (Raise e, w') => h e w'
    end.

(** [for x in xs: body x]. *)
Fixpoint for_each {A} (xs : list A) (body : A -> M unit) : M unit :=
  match xs with
  | [] => ret tt
  | x :: xs' => bind (body x) (fun _ => for_each xs' body)
  end.

#[export] Instance M_ret : MRet M := @ret.
#[export] Instance M_bind : MBind M := fun A B k m => bind m k.

(** ** The program *)

Section Program.

Context (env : Env).

(** A method call on a boto3 client: the environment answers, and the call
    is recorded. *)
Definition api_call (c : Client) (r : Request) : M (Response r) :=
  fun w => (respond env (calls w) c r, record_call c r w).

(** [boto3.client(service, region_name=region)]. *)
Definition boto3_client (service region : string) : M Client :=
  if valid_region_name env region then ret (mkClient service region)
  else raise (InvalidRegionError region).

(** [ListView.clear()] and [ListView.append(item)] on [#clusters]. *)
Definition clusters_clear : M unit := modify (with_clusters_list []).
Definition clusters_append (item : ListItem) : M unit :=
  l ← gets clusters_list; modify (with_clusters_list (l ++ [item])).

(** The same on [#services]. *)
Definition services_clear : M unit := modify (with_services_list []).
Definition services_append (item : ListItem) : M unit :=
  l ← gets services_list; modify (with_services_list (l ++ [item])).

(** [Log.clear()], [Log.write(data)], [Log.write_line(line)]. *)
Definition log_clear : M unit := modify (with_log_widget []).
Definition log_write (data : string) : M unit :=
  l ← gets log_widget; modify (with_log_widget (l ++ [Write data])).
Definition log_write_line (line : string) : M unit :=
  l ← gets log_widget; modify (with_log_widget (l ++ [WriteLine line])).

(** [RedeploytBtn.on_click]. *)
Definition on_click : M unit :=
  client ← gets ecs_client;
  cluster ← gets btn_cluster;
  service ← gets btn_service;
  _ ← api_call client (UpdateService cluster service true);
  ret tt.

(** [App.load_clusters]. *)
Definition load_clusters : M unit :=
  client ← gets ecs_client;
  clusters ← api_call client ListClusters;
  clusters_clear;;
  for_each clusters (fun cluster =>
    name ← lift (last_segment cluster);
    clusters_append (ECSClusterItem name)).

(** [App.load_services]. *)
Definition load_services : M unit :=
  sel ← gets selected_cluster;
  if opt_truthy sel then
    client ← gets ecs_client;
    services ← api_call client (ListServices (default "" sel));
    services_clear;;
    for_each services (fun service =>
      name ← lift (last_segment service);
      services_append (ECSServiceItem name))
  else ret tt.

(** [App.on_mount]. *)
Definition on_mount : M unit := load_clusters.

(** [App.select_changed], on [val = str(event.value)]. *)
Definition select_changed (val : string) : M unit :=
  modify (with_title val);;
  ecs ← boto3_client "ecs" val;
  modify (with_ecs_client ecs);;
  logs ← boto3_client "logs" val;
  modify (with_logs_client logs);;
  load_clusters.

(** The scan of [task_definition["containerDefinitions"]] in
    [get_log_group_name]: the loop with its early [return], and the final
    [return ""]. *)
Fixpoint scan_containers (defs : list ContainerDefinition) : result string :=
  match defs with
  | [] => Ok ""
  | container_def :: rest =>
      match logConfiguration container_def with
      | Some log_config =>
          if String.eqb (logDriver log_config) "awslogs" then
            match getitem "options" (options log_config) with
            | Ok opts => dict_getitem "awslogs-group" opts
            | Raise e => Raise e
            end
          else scan_containers rest
      | None => scan_containers rest
      end
  end.

(** [App.get_log_group_name]. *)
Definition get_log_group_name (cluster_name service_name : string) : M string :=
  client ← gets ecs_client;
  services ← api_call client (DescribeServices cluster_name [service_name]);
  service ← lift (index0 services);
  td_name ← lift (getitem "taskDefinition" (service_taskDefinition service));
  client' ← gets ecs_client;
  task_definition ← api_call client' (DescribeTaskDefinition td_name);
  lift (scan_containers (containerDefinitions task_definition)).

(** Truthiness of a list: the empty list is false. *)
Definition list_truthy {A} (l : list A) : bool :=
  match l with [] => false | _ :: _ => true end.

(** The body of the [try] block of [load_logs]. *)
Definition fetch_logs (log_group_name : string) : M unit :=
  client ← gets logs_client;
  log_streams ← api_call client
    (DescribeLogStreams log_group_name "LastEventTime" true 1);
  if list_truthy log_streams then
    first_stream ← lift (index0 log_streams);
    latest_stream ← lift (getitem "logStreamName" (logStreamName first_stream));
    client' ← gets logs_client;
    events ← api_call client' (GetLogEvents log_group_name latest_stream 100);
    for_each events (fun event =>
      line ← lift (getitem "message" (message event));
      log_write_line line)
  else log_write "No log streams found for this service.".

(** The [try ... except Exception as e] statement of [load_logs]. *)
Definition fetch_logs_guarded (log_group_name : string) : M unit :=
  try_except (fetch_logs log_group_name)
    (fun e => log_write ("Error fetching logs: " +:+ str_exn e)).

(** [App.load_logs]. *)
Definition load_logs : M unit :=
  sel_cluster ← gets selected_cluster;
  sel_service ← gets selected_service;
  if opt_truthy sel_cluster && opt_truthy sel_service then
    log_clear;;
    log_group_name ← get_log_group_name (default "" sel_cluster)
                                        (default "" sel_service);
    if negb (str_truthy log_group_name) then
      log_write "Could not find log group for this service."
    else fetch_logs_guarded log_group_name
  else ret tt.

(** [App.on_list_view_selected], on [event.item]. *)
Definition on_list_view_selected (item : ListItem) : M unit :=
  match item with
  | ECSClusterItem cluster_name =>
      modify (with_selected_cluster (Some cluster_name));;
      modify (with_btn_cluster cluster_name);;
      load_services
  | ECSServiceItem service_name =>
      modify (with_selected_service (Some service_name));;
      modify (with_btn_service service_name);;
      load_logs
  | PlainItem _ => ret tt
  end.

(** ** The session: events dispatched one after the other *)

Inductive Event : Type :=
  | Mount
  | SelectChanged (val : string)
  | ListViewSelected (item : ListItem)
  | Click.

Definition handle (ev : Event) : M unit :=
  match ev with
  | Mount => on_mount
  | SelectChanged val => select_changed val
  | ListViewSelected item => on_list_view_selected item
  | Click => on_click
  end.

(** The handlers are plain synchronous methods: each one runs to its end
    before the next event is dispatched, and an exception that leaves a
    handler ends the session. *)
Definition run (evs : list Event) : M unit := for_each evs handle.

End Program.

(** ** Vocabulary of the statements *)

(** The final path segment of [arn]: what [last_segment] returns (see
    [last_segment_basename]). *)
Definition basename (arn : string) : string :=
  default "" (last (split "/" arn)).

(** A fully-qualified name [prefix/id]. *)
Definition qualified (n : string * string) : string :=
  n.1 +:+ "/" +:+ n.2.

(** The container definition passes both tests of the loop of
    [get_log_group_name]: it has a [logConfiguration], whose [logDriver]
    is ["awslogs"]. *)
Definition uses_awslogs (c : ContainerDefinition) : bool :=
  match logConfiguration c with
  | Some log_config => String.eqb (logDriver log_config) "awslogs"
  | None => false
  end.

(** The log-group option a container definition declares, if any. *)
Definition declared_group (c : ContainerDefinition) : option string :=
  log_config ← logConfiguration c;
  opts ← options log_config;
  opts !! "awslogs-group".

(** The resolution rule in the words of the specification: the group of
    the first container definition whose log driver is ["awslogs"] and
    which declares a log-group option; [None] when there is none. *)
Fixpoint spec_resolve (defs : list ContainerDefinition) : option string :=
  match defs with
  | [] => None
  | c :: rest =>
      if uses_awslogs c then
        match declared_group c with
        | Some g => Some g
        | None => spec_resolve rest
        end
      else spec_resolve rest
  end.

(** No container definition of [defs] passes the tests of the loop. *)
Definition no_awslogs (defs : list ContainerDefinition) : Prop :=
  Forall (fun d => uses_awslogs d = false) defs.

(** [c] is the first container definition of [defs], in their order, that
    passes the tests of the loop. *)
Definition first_awslogs (defs : list ContainerDefinition)
    (c : ContainerDefinition) : Prop :=
  exists before after,
    defs = (before ++ c :: after)%list /\
    no_awslogs before /\
    uses_awslogs c = true.

(** Both requests of [get_log_group_name], issued from world [w], are
    answered: the service is described, names its task definition, and
    that task definition is [td]. *)
Definition describes (env : Env) (w : World) (cluster service : string)
    (td : TaskDefinition) : Prop :=
  exists svc others td_name,
    respond env (calls w) (ecs_client w) (DescribeServices cluster [service])
      = Ok (svc :: others) /\
    service_taskDefinition svc = Some td_name /\
    respond env
      (calls w ++ [mkCall (ecs_client w) (DescribeServices cluster [service])])
      (ecs_client w) (DescribeTaskDefinition td_name)
      = Ok td.

(** The messages of a batch of events, in the order of the batch. *)
Definition messages (events : list OutputLogEvent) : list string :=
  omap message events.

(** The contract of [limit] on [get_log_events]: a response never holds
    more events than asked for. *)
Definition honours_limit (env : Env) : Prop :=
  forall history c g s n events,
    respond env history c (GetLogEvents g s n) = Ok events ->
    List.length events <= n.

(** Both handles are bound to one region. *)
Definition same_region (w : World) : Prop :=
  exists region,
    ecs_client w = mkClient "ecs" region /\
    logs_client w = mkClient "logs" region.

(** States the session can be in between two events, or when it ends. *)
Definition reachable (env : Env) (w : World) : Prop :=
  exists evs, (run env evs initial).2 = w.

(** The pair of handles, as one observation. *)
Definition clients (w : World) : Client * Client :=
  (ecs_client w, logs_client w).

(** [m] relates every world to the world it leaves behind, whether it
    returns or raises. *)
Definition respects (R : relation World) {A} (m : M A) : Prop :=
  forall w, R w (m w).2.

(** The observation [f] has the same value after as before. *)
Definition unchanged {X} (f : World -> X) : relation World :=
  fun w w' => f w' = f w.

(** ** Vocabulary of the session properties *)

(** The request belongs to CloudWatch Logs (the others belong to ECS). *)
Definition is_log_request (r : Request) : bool :=
  match r with
  | DescribeLogStreams _ _ _ _ | GetLogEvents _ _ _ => true
  | _ => false
  end.

(** The request is a forced redeployment. *)
Definition is_redeploy (r : Request) : bool :=
  match r with
  | UpdateService _ _ _ => true
  | _ => false
  end.

(** Number of redeployment requests in a trace. *)
Definition redeploys (cs : list Call) : nat :=
  List.length (List.filter (fun c => is_redeploy (req c)) cs).

Definition is_click (ev : Event) : bool :=
  match ev with Click => true | _ => false end.

(** Number of clicks on the redeploy button in a sequence of events. *)
Definition clicks (evs : list Event) : nat :=
  List.length (List.filter is_click evs).

(** The call went out on the handle that [w] binds for its service. *)
Definition routed (w : World) (c : Call) : Prop :=
  via c = if is_log_request (req c) then logs_client w else ecs_client w.

(** From [w] to [w'] the handles are the same and at most [n] requests
    were issued, each satisfying [P]. *)
Definition issues (P : Call -> Prop) (n : nat) (w w' : World) : Prop :=
  clients w' = clients w /\
  exists new,
    calls w' = calls w ++ new /\ List.length new <= n /\ Forall P new.

(** A browsing request on the handle that [w] binds for it. *)
Definition browse_call (w : World) (c : Call) : Prop :=
  routed w c /\ is_redeploy (req c) = false.

Definition is_cluster_item (i : ListItem) : bool :=
  match i with ECSClusterItem _ => true | _ => false end.

Definition is_service_item (i : ListItem) : bool :=
  match i with ECSServiceItem _ => true | _ => false end.

(** ** A concrete account, for examples *)

Module Demo.

Definition api_cluster_arn : string :=
  "arn:aws:ecs:us-east-1:123456789012:cluster/api-cluster".
Definition batch_arn : string :=
  "arn:aws:ecs:us-east-1:123456789012:cluster/batch".
Definition edge_arn : string :=
  "arn:aws:ecs:eu-west-1:123456789012:cluster/edge".
Definition web_arn : string :=
  "arn:aws:ecs:us-east-1:123456789012:service/api-cluster/web".
Definition worker_arn : string :=
  "arn:aws:ecs:us-east-1:123456789012:service/api-cluster/worker".

Definition awslogs_to (group : string) : option LogConfiguration :=
  Some (mkLogConfiguration "awslogs"
          (Some (<["awslogs-group" := group]> (∅ : gmap string string)))).

(** Task definition of [web]: a container without logging, then two
    containers that log to different groups. *)
Definition web_task : TaskDefinition :=
  mkTaskDefinition
    [ mkContainerDefinition "proxy" None;
      mkContainerDefinition "web" (awslogs_to "/ecs/web");
      mkContainerDefinition "metrics" (awslogs_to "/ecs/metrics") ].

(** Task definition of [worker]: the first ["awslogs"] container carries
    no options, the second one does. *)
Definition worker_task : TaskDefinition :=
  mkTaskDefinition
    [ mkContainerDefinition "sidecar"
        (Some (mkLogConfiguration "awslogs" None));
      mkContainerDefinition "worker" (awslogs_to "/ecs/worker") ].

(** Task definition of [legacy]: ["awslogs"] options without a group. *)
Definition legacy_task : TaskDefinition :=
  mkTaskDefinition
    [ mkContainerDefinition "legacy"
        (Some (mkLogConfiguration "awslogs"
           (Some (<["awslogs-region" := "us-east-1"]>
                    (∅ : gmap string string))))) ].

(** Task definition of [cron]: logging, but to another driver. *)
Definition cron_task : TaskDefinition :=
  mkTaskDefinition
    [ mkContainerDefinition "cron"
        (Some (mkLogConfiguration "json-file" None)) ].

Definition web_events : list OutputLogEvent :=
  [ mkOutputLogEvent 1001 (Some "starting");
    mkOutputLogEvent 1002 (Some "listening on :8080");
    mkOutputLogEvent 1003 (Some "GET /health 200") ].

(** The most recent [n] elements of [l], oldest first. *)
Definition latest {A} (n : nat) (l : list A) : list A :=
  drop (List.length l - n) l.

Definition respond (history : list Call) (c : Client) (r : Request)
  : result (Response r) :=
  match r as r0 return result (Response r0) with
  | ListClusters =>
      if String.eqb (region_name c) "us-east-1" then
        Ok [api_cluster_arn; batch_arn]
      else if String.eqb (region_name c) "eu-west-1" then Ok [edge_arn]
      else Raise (CloudError "AccessDeniedException")
  | ListServices cluster =>
      if String.eqb cluster "api-cluster" then Ok [web_arn; worker_arn]
      else if String.eqb cluster "batch" then Ok []
      else Raise (CloudError "ClusterNotFoundException")
  | DescribeServices cluster services =>
      match services with
      | [service] =>
          if String.eqb service "web" then Ok [mkService (Some "web:7")]
          else if String.eqb service "worker" then
            Ok [mkService (Some "worker:3")]
          else if String.eqb service "cron" then
            Ok [mkService (Some "cron:1")]
          else if String.eqb service "legacy" then
            Ok [mkService (Some "legacy:2")]
          else Ok []
      | _ => Ok []
      end
  | DescribeTaskDefinition taskDefinition =>
      if String.eqb taskDefinition "web:7" then Ok web_task
      else if String.eqb taskDefinition "worker:3" then Ok worker_task
      else if String.eqb taskDefinition "cron:1" then Ok cron_task
      else if String.eqb taskDefinition "legacy:2" then Ok legacy_task
      else Raise (CloudError "ClientException")
  | UpdateService cluster service _ =>
      if String.eqb cluster "api-cluster" && String.eqb service "web"
      then Ok tt
      else Raise (CloudError "ServiceNotFoundException")
  | DescribeLogStreams logGroupName _ _ limit =>
      if String.eqb logGroupName "/ecs/web" then
        Ok (take limit [mkLogStream (Some "web/web/4f1c")])
      else if String.eqb logGroupName "/ecs/metrics" then Ok []
      else Raise (CloudError "ResourceNotFoundException")
  | GetLogEvents logGroupName logStreamName limit =>
      if String.eqb logGroupName "/ecs/web"
         && String.eqb logStreamName "web/web/4f1c"
      then Ok (latest limit web_events)
      else Raise (CloudError "ResourceNotFoundException")
  end.

(** Region names without a dot are accepted. *)
Definition valid_region_name (region : string) : bool :=
  negb (occurs "." region).

Definition env : Env := mkEnv respond valid_region_name.

(** The session after the operator has opened service [web] of cluster
    [api-cluster] in the default region. *)
Definition browsing : World :=
  (run env [ Mount;
             ListViewSelected (ECSClusterItem "api-cluster");
             ListViewSelected (ECSServiceItem "web") ] initial).2.

End Demo.

(** ** An account whose log responses lack keys, for examples *)

Module Faulty.

Definition task : TaskDefinition :=
  mkTaskDefinition
    [ mkContainerDefinition "app"
        (Some (mkLogConfiguration "awslogs"
           (Some (<["awslogs-group" := "/ecs/gap"]>
                    (∅ : gmap string string))))) ].

(** The second event carries no message. *)
Definition gap_events : list OutputLogEvent :=
  [ mkOutputLogEvent 7 (Some "boot");
    mkOutputLogEvent 8 None;
    mkOutputLogEvent 9 (Some "ready") ].

Definition respond (history : list Call) (c : Client) (r : Request)
  : result (Response r) :=
  match r as r0 return result (Response r0) with
  | ListClusters => Ok ["cluster/main"]
  | ListServices _ => Ok ["service/main/app"]
  | DescribeServices _ _ => Ok [mkService (Some "app:1")]
  | DescribeTaskDefinition _ => Ok task
  | UpdateService _ _ _ => Ok tt
  | DescribeLogStreams logGroupName _ _ _ =>
      if String.eqb logGroupName "/ecs/gap" then
        Ok [mkLogStream (Some "app/1")]
      else Ok [mkLogStream None]
  | GetLogEvents _ _ _ => Ok gap_events
  end.

Definition env : Env := mkEnv respond (fun _ => true).

End Faulty.

(** * Properties *)

(** ** Identifier derivation *)

Lemma split_not_nil sep s : split sep s <> [].
Proof.
  destruct s as [|c s]; simpl; [discriminate|].
  destruct (Ascii.eqb c sep); [discriminate|].
  destruct (split sep s); discriminate.
Qed.

(** A name without the separator is its own single segment. *)
Lemma split_no_sep sep s : occurs sep s = false -> split sep s = [s].
Proof.
  induction s as [|c s IH]; simpl; [reflexivity|].
  intros H. apply orb_false_iff in H as [Hc Hs].
  rewrite Hc, (IH Hs). reflexivity.
Qed.

(** Splitting [prefix ++ sep ++ id] ends with the segment [id], after at
    least one other segment. *)
Lemma split_app_sep sep prefix id :
  occurs sep id = false ->
  exists seg segs,
    split sep (prefix +:+ String sep id) = seg :: segs ++ [id].
Proof.
  intros Hid. induction prefix as [|c p (seg & segs & IH)]; simpl.
  - rewrite Ascii.eqb_refl, (split_no_sep _ _ Hid).
    exists EmptyString, []. reflexivity.
  - rewrite IH. destruct (Ascii.eqb c sep).
    + exists EmptyString, (seg :: segs). reflexivity.
    + exists (String c seg), segs. reflexivity.
Qed.

Lemma last_segment_basename arn : last_segment arn = Ok (basename arn).
Proof.
  unfold last_segment, index_last, basename.
  destruct (last (split "/" arn)) eqn:E; [reflexivity|].
  apply last_None in E. destruct (split_not_nil _ _ E).
Qed.

Lemma basename_qualified n :
  occurs "/" n.2 = false -> basename (qualified n) = n.2.
Proof.
  intros H. unfold basename, qualified.
  destruct (split_app_sep "/" n.1 n.2 H) as (seg & segs & E).
  change (n.1 +:+ "/" +:+ n.2) with (n.1 +:+ String "/" n.2). rewrite E.
  rewrite app_comm_cons, last_snoc. reflexivity.
Qed.

Lemma map_basename_qualified {B} (mk : string -> B)
    (names : list (string * string)) :
  Forall (fun n => occurs "/" n.2 = false) names ->
  map (fun arn => mk (basename arn)) (map qualified names)
  = map (fun n => mk n.2) names.
Proof.
  induction 1 as [|n names Hn _ IH]; simpl; [reflexivity|].
  rewrite (basename_qualified _ Hn), IH. reflexivity.
Qed.

(** ** Running the handlers *)

(** A world is determined by its eleven attributes. *)
Lemma World_eta w :
  mkWorld (ecs_client w) (logs_client w) (title w) (selected_cluster w)
    (selected_service w) (btn_cluster w) (btn_service w) (clusters_list w)
    (services_list w) (log_widget w) (calls w) = w.
Proof. destruct w; reflexivity. Qed.

(** The loop of [load_clusters] appends one item per name and cannot
    fail. *)
Lemma append_clusters_run arns w :
  for_each arns (fun cluster =>
    name ← lift (last_segment cluster);
    clusters_append (ECSClusterItem name)) w
  = (Ok tt,
     with_clusters_list
       (clusters_list w ++ map (fun arn => ECSClusterItem (basename arn)) arns)
       w).
Proof.
  revert w. induction arns as [|arn arns IH]; intros w; simpl.
  - unfold ret, with_clusters_list. rewrite app_nil_r, World_eta. reflexivity.
  - unfold bind at 1, mbind, M_bind, bind, lift.
    rewrite last_segment_basename. simpl. rewrite IH.
    unfold with_clusters_list; simpl. rewrite <- app_assoc. reflexivity.
Qed.

Lemma append_services_run arns w :
  for_each arns (fun service =>
    name ← lift (last_segment service);
    services_append (ECSServiceItem name)) w
  = (Ok tt,
     with_services_list
       (services_list w ++ map (fun arn => ECSServiceItem (basename arn)) arns)
       w).
Proof.
  revert w. induction arns as [|arn arns IH]; intros w; simpl.
  - unfold ret, with_services_list. rewrite app_nil_r, World_eta. reflexivity.
  - unfold bind at 1, mbind, M_bind, bind, lift.
    rewrite last_segment_basename. simpl. rewrite IH.
    unfold with_services_list; simpl. rewrite <- app_assoc. reflexivity.
Qed.

(** [load_clusters], by the answer to its one request. *)
Lemma load_clusters_run env w :
  load_clusters env w =
  let w1 := record_call (ecs_client w) ListClusters w in
  match respond env (calls w) (ecs_client w) ListClusters with
  | Ok arns =>
      (Ok tt,
       with_clusters_list
         (map (fun arn => ECSClusterItem (basename arn)) arns) w1)
  | Raise e => (Raise e, w1)
  end.
Proof.
  unfold load_clusters, mbind, M_bind, bind, gets, api_call, clusters_clear,
    modify. simpl.
  destruct (respond env (calls w) (ecs_client w) ListClusters) as [arns|e];
    [|reflexivity].
  rewrite append_clusters_run. reflexivity.
Qed.

(** [load_services], by the selection and the answer to its request. *)
Lemma load_services_run env w :
  load_services env w =
  if opt_truthy (selected_cluster w) then
    let r := ListServices (default "" (selected_cluster w)) in
    let w1 := record_call (ecs_client w) r w in
    match respond env (calls w) (ecs_client w) r with
    | Ok arns =>
        (Ok tt,
         with_services_list
           (map (fun arn => ECSServiceItem (basename arn)) arns) w1)
    | Raise e => (Raise e, w1)
    end
  else (Ok tt, w).
Proof.
  unfold load_services, mbind, M_bind, bind, gets. simpl.
  destruct (opt_truthy (selected_cluster w)); [|reflexivity].
  unfold api_call, services_clear, modify. simpl.
  destruct (respond env (calls w) (ecs_client w) _) as [arns|e];
    [|reflexivity].
  rewrite append_services_run. reflexivity.
Qed.

(** C4. For every list of fully-qualified names [prefix/id] (no ['/'] in
    [id]) returned by a listing call, the derived identifier of each name
    is exactly [id], the substring after its last ['/']; and the cluster
    and service list views hold exactly those identifiers, in the order of
    the listing, with no other transformation applied. *)
Theorem identifier_derivation env w (names : list (string * string)) :
  Forall (fun n => occurs "/" n.2 = false) names ->
  Forall2 (fun arn n => last_segment arn = Ok n.2) (map qualified names) names
  /\ (respond env (calls w) (ecs_client w) ListClusters
        = Ok (map qualified names) ->
      exists w',
        load_clusters env w = (Ok tt, w') /\
        clusters_list w' = map (fun n => ECSClusterItem n.2) names)
  /\ (forall cluster,
        selected_cluster w = Some cluster ->
        str_truthy cluster = true ->
        respond env (calls w) (ecs_client w) (ListServices cluster)
          = Ok (map qualified names) ->
        exists w',
          load_services env w = (Ok tt, w') /\
          services_list w' = map (fun n => ECSServiceItem n.2) names).
Proof.
  intros Hnames. split; [|split].
  - induction Hnames as [|n names Hn _ IH]; constructor; [|exact IH].
    rewrite last_segment_basename, (basename_qualified _ Hn). reflexivity.
  - intros Hresp. rewrite load_clusters_run, Hresp. simpl.
    eexists; split; [reflexivity|]. simpl.
    apply map_basename_qualified, Hnames.
  - intros cluster Hsel Htruthy Hresp.
    rewrite load_services_run, Hsel. simpl. rewrite Htruthy, Hresp.
    eexists; split; [reflexivity|]. simpl.
    apply map_basename_qualified, Hnames.
Qed.

(** The two clusters of the demo account, listed at start-up. *)
Lemma identifier_derivation_witness :
  Forall (fun n : string * string => occurs "/" n.2 = false)
    [ ("arn:aws:ecs:us-east-1:123456789012:cluster", "api-cluster");
      ("arn:aws:ecs:us-east-1:123456789012:cluster", "batch") ] /\
  exists w',
    load_clusters Demo.env initial = (Ok tt, w') /\
    clusters_list w' = [ECSClusterItem "api-cluster"; ECSClusterItem "batch"].
Proof.
  assert (H : Forall (fun n : string * string => occurs "/" n.2 = false)
    [ ("arn:aws:ecs:us-east-1:123456789012:cluster", "api-cluster");
      ("arn:aws:ecs:us-east-1:123456789012:cluster", "batch") ]).
  { repeat constructor. }
  split; [exact H|].
  apply (identifier_derivation Demo.env initial _ H). reflexivity.
Defined.

(** ** Frame reasoning: what a handler leaves alone *)

#[export] Instance unchanged_preorder {X} (f : World -> X) :
  PreOrder (unchanged f).
Proof.
  split.
  - intros w. reflexivity.
  - intros w1 w2 w3 H12 H23. unfold unchanged in *. congruence.
Qed.

Section Frame.

Context (R : relation World) `{!PreOrder R}.

Lemma respects_ret {A} (a : A) : respects R (mret a : M A).
Proof. intros w. simpl. reflexivity. Qed.

Lemma respects_lift {A} (r : result A) : respects R (lift r).
Proof. intros w. simpl. reflexivity. Qed.

Lemma respects_raise {A} (e : exn) : respects R (raise e : M A).
Proof. intros w. simpl. reflexivity. Qed.

Lemma respects_gets {A} (f : World -> A) : respects R (gets f).
Proof. intros w. simpl. reflexivity. Qed.

Lemma respects_modify (f : World -> World) :
  (forall w, R w (f w)) -> respects R (modify f).
Proof. intros H w. apply H. Qed.

Lemma respects_api_call env c r :
  (forall w, R w (record_call c r w)) -> respects R (api_call env c r).
Proof. intros H w. apply H. Qed.

Lemma respects_bind {A B} (m : M A) (k : A -> M B) :
  respects R m -> (forall a, respects R (k a)) -> respects R (m ≫= k).
Proof.
  intros Hm Hk w. unfold mbind, M_bind, bind.
  specialize (Hm w). destruct (m w) as [[a|e] w1]; simpl in *; [|exact Hm].
  etransitivity; [exact Hm|apply Hk].
Qed.

Lemma respects_try_except {A} (m : M A) (h : exn -> M A) :
  respects R m -> (forall e, respects R (h e)) -> respects R (try_except m h).
Proof.
  intros Hm Hh w. unfold try_except.
  specialize (Hm w). destruct (m w) as [[a|e] w1]; simpl in *; [exact Hm|].
  etransitivity; [exact Hm|apply Hh].
Qed.

Lemma respects_for_each {A} (xs : list A) (body : A -> M unit) :
  (forall x, respects R (body x)) -> respects R (for_each xs body).
Proof.
  intros Hbody. induction xs as [|x xs IH]; simpl.
  - apply respects_ret.
  - apply (respects_bind (body x) (fun _ => for_each xs body)); auto.
Qed.

Lemma respects_if {A} (b : bool) (m1 m2 : M A) :
  respects R m1 -> respects R m2 -> respects R (if b then m1 else m2).
Proof. destruct b; auto. Qed.

End Frame.

(** Decompose a handler into its primitive steps; what remains are the
    assignments, one goal [R w (f w)] each. *)
Ltac frame_steps :=
  repeat first
    [ apply respects_bind; [tc_solve| |intros ?]
    | apply respects_try_except; [tc_solve| |intros ?]
    | apply respects_for_each; [tc_solve|intros ?]
    | apply respects_if
    | apply respects_ret; tc_solve
    | apply respects_lift; tc_solve
    | apply respects_raise; tc_solve
    | apply respects_gets; tc_solve
    | apply respects_modify; intros ?
    | apply respects_api_call; intros ? ].

Lemma load_logs_frame {X} (f : World -> X) env :
  (forall l w, f (with_log_widget l w) = f w) ->
  (forall c r w, f (record_call c r w) = f w) ->
  respects (unchanged f) (load_logs env).
Proof.
  intros Hlog Hcall.
  unfold load_logs, fetch_logs_guarded, fetch_logs, get_log_group_name,
    log_clear, log_write, log_write_line.
  frame_steps; first [apply Hlog | apply Hcall].
Qed.

(** ** Cluster selection *)

Lemma select_cluster_run env n w :
  on_list_view_selected env (ECSClusterItem n) w
  = load_services env (with_btn_cluster n (with_selected_cluster (Some n) w)).
Proof. reflexivity. Qed.

(** C1, as the code has it. Selecting a cluster sets [selected_cluster]
    and the cluster of the redeploy button, and, when the name is not
    empty and the listing answers, replaces the service list by the
    identifiers of that listing.  The selected service, the service of the
    redeploy button and the log view keep their previous value. *)
Theorem select_cluster_effect env w n :
  let w' := (on_list_view_selected env (ECSClusterItem n) w).2 in
  selected_cluster w' = Some n /\
  btn_cluster w' = n /\
  selected_service w' = selected_service w /\
  btn_service w' = btn_service w /\
  log_widget w' = log_widget w /\
  services_list w' =
    (if str_truthy n then
       match respond env (calls w) (ecs_client w) (ListServices n) with
       | Ok arns => map (fun arn => ECSServiceItem (basename arn)) arns
       | Raise _ => services_list w
       end
     else services_list w).
Proof.
  rewrite select_cluster_run, load_services_run. simpl.
  destruct (str_truthy n); simpl; [|repeat split].
  destruct (respond env (calls w) (ecs_client w) (ListServices n));
    repeat split.
Qed.

(** C1 fails as stated: with service [web] open, selecting cluster [batch]
    leaves [web] selected (also on the redeploy button) and the three log
    lines of [web] on screen. *)
Lemma select_cluster_keeps_service_and_logs :
  let w := Demo.browsing in
  let w' := (on_list_view_selected Demo.env (ECSClusterItem "batch") w).2 in
  selected_service w = Some "web" /\
  selected_cluster w' = Some "batch" /\
  selected_service w' = Some "web" /\
  btn_service w' = "web" /\
  log_widget w' = [ WriteLine "starting"; WriteLine "listening on :8080";
                    WriteLine "GET /health 200" ].
Proof. vm_compute. repeat split. Qed.

(** ** Region switch *)

Lemma select_changed_run env val w :
  select_changed env val w =
  if valid_region_name env val then
    load_clusters env
      (with_logs_client (mkClient "logs" val)
         (with_ecs_client (mkClient "ecs" val) (with_title val w)))
  else (Raise (InvalidRegionError val), with_title val w).
Proof.
  unfold select_changed, boto3_client, mbind, M_bind, bind, modify. simpl.
  destruct (valid_region_name env val); reflexivity.
Qed.

(** C2, as the code has it. A region switch sets the title and, when the
    region name is accepted, binds both clients to the new region and asks
    it for its clusters; when the listing answers, the cluster list is
    replaced by the identifiers of that listing.  The selected cluster, the
    selected service, the redeploy button, the service list and the log
    view keep their previous value. *)
Theorem region_switch_effect env w val :
  let w' := (select_changed env val w).2 in
  title w' = val /\
  (if valid_region_name env val then
     ecs_client w' = mkClient "ecs" val /\
     logs_client w' = mkClient "logs" val /\
     clusters_list w' =
       match respond env (calls w) (mkClient "ecs" val) ListClusters with
       | Ok arns => map (fun arn => ECSClusterItem (basename arn)) arns
       | Raise _ => clusters_list w
       end
   else
     ecs_client w' = ecs_client w /\
     logs_client w' = logs_client w /\
     clusters_list w' = clusters_list w) /\
  selected_cluster w' = selected_cluster w /\
  selected_service w' = selected_service w /\
  btn_cluster w' = btn_cluster w /\
  btn_service w' = btn_service w /\
  services_list w' = services_list w /\
  log_widget w' = log_widget w.
Proof.
  rewrite select_changed_run.
  destruct (valid_region_name env val); simpl; [|repeat split].
  rewrite load_clusters_run. simpl.
  destruct (respond env (calls w) (mkClient "ecs" val) ListClusters);
    repeat split.
Qed.

(** C2 fails as stated: with service [web] of [api-cluster] open in
    [us-east-1], switching to [eu-west-1] rebinds the clients and shows the
    clusters of [eu-west-1], but the selection, the service list and the
    log lines of [us-east-1] all stay. *)
Lemma region_switch_keeps_selection_and_logs :
  let w := Demo.browsing in
  let w' := (select_changed Demo.env "eu-west-1" w).2 in
  region_name (ecs_client w) = "us-east-1" /\
  ecs_client w' = mkClient "ecs" "eu-west-1" /\
  logs_client w' = mkClient "logs" "eu-west-1" /\
  clusters_list w' = [ECSClusterItem "edge"] /\
  selected_cluster w' = Some "api-cluster" /\
  selected_service w' = Some "web" /\
  services_list w' = [ECSServiceItem "web"; ECSServiceItem "worker"] /\
  log_widget w' = [ WriteLine "starting"; WriteLine "listening on :8080";
                    WriteLine "GET /health 200" ].
Proof. vm_compute. repeat split. Qed.

(** ** Failures of listing and of redeployment *)

(** An exception that leaves a handler ends the session there. *)
Lemma run_raise env ev rest w e w' :
  handle env ev w = (Raise e, w') -> run env (ev :: rest) w = (Raise e, w').
Proof. intros H. unfold run. simpl. unfold bind. rewrite H. reflexivity. Qed.

(** C6, as the code has it. A listing call that fails is not caught: the
    exception leaves [load_clusters] or [load_services], then the handler,
    and ends the session.  The world it leaves behind differs from the one
    before only by the recorded call: the affected list keeps its items and
    nothing is written to the log view. *)
Theorem listing_failure_propagates env w e rest :
  (respond env (calls w) (ecs_client w) ListClusters = Raise e ->
   let w' := record_call (ecs_client w) ListClusters w in
   load_clusters env w = (Raise e, w') /\
   run env (Mount :: rest) w = (Raise e, w') /\
   clusters_list w' = clusters_list w /\
   log_widget w' = log_widget w)
  /\
  (forall cluster,
     str_truthy cluster = true ->
     respond env (calls w) (ecs_client w) (ListServices cluster) = Raise e ->
     let w0 := with_btn_cluster cluster
                 (with_selected_cluster (Some cluster) w) in
     let w' := record_call (ecs_client w) (ListServices cluster) w0 in
     load_services env w0 = (Raise e, w') /\
     run env (ListViewSelected (ECSClusterItem cluster) :: rest) w
       = (Raise e, w') /\
     services_list w' = services_list w /\
     log_widget w' = log_widget w).
Proof.
  split.
  - intros Hresp w'.
    assert (Hload : load_clusters env w = (Raise e, w')).
    { rewrite load_clusters_run, Hresp. reflexivity. }
    repeat split; [exact Hload|].
    apply run_raise. exact Hload.
  - intros cluster Htruthy Hresp w0 w'.
    assert (Hload : load_services env w0 = (Raise e, w')).
    { rewrite load_services_run. subst w0 w'. simpl.
      rewrite Htruthy, Hresp. reflexivity. }
    repeat split; [exact Hload|].
    apply run_raise. exact Hload.
Qed.

(** In the demo account [ap-south-1] denies the listing; the session that
    switched there ends on the next listing, and the unknown cluster
    [ghost] ends it as well. *)
Lemma listing_failure_propagates_witness :
  let w := (select_changed Demo.env "ap-south-1" initial).2 in
  respond Demo.env (calls w) (ecs_client w) ListClusters
    = Raise (CloudError "AccessDeniedException") /\
  run Demo.env [Mount; Click] w
    = (Raise (CloudError "AccessDeniedException"),
       record_call (ecs_client w) ListClusters w) /\
  run Demo.env [ListViewSelected (ECSClusterItem "ghost"); Click] initial
    = (Raise (CloudError "ClusterNotFoundException"),
       record_call (ecs_client initial) (ListServices "ghost")
         (with_btn_cluster "ghost"
            (with_selected_cluster (Some "ghost") initial))).
Proof.
  intros w.
  assert (H1 : respond Demo.env (calls w) (ecs_client w) ListClusters
               = Raise (CloudError "AccessDeniedException")).
  { reflexivity. }
  split; [exact H1|]. split.
  - destruct (listing_failure_propagates Demo.env w
                (CloudError "AccessDeniedException") [Click]) as [Hc _].
    apply (Hc H1).
  - destruct (listing_failure_propagates Demo.env initial
                (CloudError "ClusterNotFoundException") [Click]) as [_ Hs].
    apply (Hs "ghost"); reflexivity.
Defined.

(** C6 fails as stated: with the clusters of [us-east-1] on screen, a
    switch to [ap-south-1], whose listing is denied, raises out of the
    session loop ([Click] is never handled); the cluster list still shows
    the two clusters of [us-east-1] and the log view holds no message about
    the failure. *)
Lemma listing_failure_ends_session :
  let w := Demo.browsing in
  let out := run Demo.env [SelectChanged "ap-south-1"; Click] w in
  out.1 = Raise (CloudError "AccessDeniedException") /\
  clusters_list out.2
    = [ECSClusterItem "api-cluster"; ECSClusterItem "batch"] /\
  log_widget out.2 = log_widget w /\
  Forall (fun c => req c <> UpdateService "api-cluster" "web" true)
    (calls out.2).
Proof.
  vm_compute. repeat split. repeat constructor; discriminate.
Qed.

(** [on_click], by the answer to its one request. *)
Lemma on_click_run env w :
  on_click env w =
  let request := UpdateService (btn_cluster w) (btn_service w) true in
  (match respond env (calls w) (ecs_client w) request with
   | Ok _ => Ok tt
   | Raise e => Raise e
   end,
   record_call (ecs_client w) request w).
Proof.
  unfold on_click, mbind, M_bind, bind, gets, api_call. simpl.
  destruct (respond env (calls w) (ecs_client w) _); reflexivity.
Qed.

(** C7, as the code has it. A click on the redeploy button issues exactly
    one [update_service] request with [forceNewDeployment=True], on the
    ECS client bound at that moment and for the cluster and service stored
    on the button.  Its failure is not caught and not retried: the
    exception leaves [on_click], and nothing but the record of the call
    changes -- in particular the log view receives no message. *)
Theorem redeploy_once env w :
  let request := UpdateService (btn_cluster w) (btn_service w) true in
  let out := on_click env w in
  calls out.2 = calls w ++ [mkCall (ecs_client w) request] /\
  out.1 = match respond env (calls w) (ecs_client w) request with
          | Ok _ => Ok tt
          | Raise e => Raise e
          end /\
  out.2 = record_call (ecs_client w) request w /\
  log_widget out.2 = log_widget w.
Proof.
  intros request out. subst out. rewrite on_click_run.
  repeat split.
Qed.

(** C7 fails as stated: after [batch] was selected over the open service
    [web], the button holds [(batch, web)]; the click issues one request,
    which fails, and the failure is raised to the session loop with the
    log view unchanged. *)
Lemma redeploy_failure_not_rendered :
  let w := (on_list_view_selected Demo.env (ECSClusterItem "batch")
              Demo.browsing).2 in
  let out := run Demo.env [Click] w in
  btn_cluster w = "batch" /\ btn_service w = "web" /\
  out.1 = Raise (CloudError "ServiceNotFoundException") /\
  calls out.2
    = (calls w ++ [mkCall (mkClient "ecs" "us-east-1")
                     (UpdateService "batch" "web" true)])%list /\
  log_widget out.2 = log_widget w.
Proof. vm_compute. repeat split. Qed.

(** ** The two client handles *)

(** One event either leaves both handles alone or, for a region switch,
    replaces both by handles on the new region. *)
Lemma handle_clients env ev w :
  let w' := (handle env ev w).2 in
  clients w' = clients w \/
  exists region,
    ev = SelectChanged region /\
    ecs_client w' = mkClient "ecs" region /\
    logs_client w' = mkClient "logs" region.
Proof.
  destruct ev as [|val|item|]; simpl.
  - left. unfold on_mount. rewrite load_clusters_run. simpl.
    destruct (respond env (calls w) (ecs_client w) ListClusters); reflexivity.
  - rewrite select_changed_run.
    destruct (valid_region_name env val); [|left; reflexivity].
    right. exists val. rewrite load_clusters_run. simpl.
    destruct (respond env (calls w) (mkClient "ecs" val) ListClusters);
      repeat split.
  - left. destruct item as [label|n|n].
    + reflexivity.
    + rewrite select_cluster_run, load_services_run. simpl.
      destruct (str_truthy n); [|reflexivity].
      destruct (respond env (calls w) (ecs_client w) (ListServices n));
        reflexivity.
    + exact (load_logs_frame clients env (fun _ _ => eq_refl)
               (fun _ _ _ => eq_refl)
               (with_btn_service n (with_selected_service (Some n) w))).
  - left. rewrite on_click_run. reflexivity.
Qed.

Lemma handle_same_region env ev w :
  same_region w -> same_region (handle env ev w).2.
Proof.
  intros (region & Hecs & Hlogs).
  destruct (handle_clients env ev w) as [Heq|(region' & _ & Hecs' & Hlogs')].
  - injection Heq as He Hl. exists region. split; congruence.
  - exists region'. split; assumption.
Qed.

Lemma run_same_region env evs w :
  same_region w -> same_region (run env evs w).2.
Proof.
  revert w. induction evs as [|ev evs IH]; intros w Hw; [exact Hw|].
  pose proof (handle_same_region env ev w Hw) as Hstep.
  unfold run in *. simpl. unfold bind.
  destruct (handle env ev w) as [[[]|e] w1]; simpl in *; auto.
Qed.

(** C8. In every state the session can be in, between two events or when
    it ends, the ECS handle and the logs handle are bound to the same
    region; and every event either leaves both handles as they are or, if
    it is a region switch, replaces both by handles on the new region. *)
Theorem clients_bound_together env w :
  reachable env w ->
  same_region w /\
  forall ev,
    let w' := (handle env ev w).2 in
    (ecs_client w' = ecs_client w /\ logs_client w' = logs_client w) \/
    (exists region,
       ev = SelectChanged region /\
       ecs_client w' = mkClient "ecs" region /\
       logs_client w' = mkClient "logs" region).
Proof.
  intros [evs <-]. split.
  - apply run_same_region. exists "us-east-1". split; reflexivity.
  - intros ev w'.
    destruct (handle_clients env ev (run env evs initial).2) as [Heq|Hsw].
    + left. injection Heq as He Hl. split; assumption.
    + right. exact Hsw.
Qed.

(** The demo session after a switch to [eu-west-1], and after a switch
    that botocore refuses. *)
Lemma clients_bound_together_witness :
  let w := (run Demo.env [Mount; SelectChanged "eu-west-1";
                          SelectChanged "Select.BLANK"] initial).2 in
  reachable Demo.env w /\ same_region w /\
  region_name (ecs_client w) = "eu-west-1".
Proof.
  intros w.
  assert (Hw : reachable Demo.env w).
  { exists [Mount; SelectChanged "eu-west-1"; SelectChanged "Select.BLANK"].
    reflexivity. }
  split; [exact Hw|]. split.
  - exact (proj1 (clients_bound_together Demo.env w Hw)).
  - reflexivity.
Defined.

(** ** Log-group resolution *)

(** [get_log_group_name], by the answers to its two requests. *)
Lemma get_log_group_name_run env cluster service w :
  get_log_group_name env cluster service w =
  let r1 := DescribeServices cluster [service] in
  let w1 := record_call (ecs_client w) r1 w in
  match respond env (calls w) (ecs_client w) r1 with
  | Raise e => (Raise e, w1)
  | Ok [] => (Raise IndexError, w1)
  | Ok (svc :: _) =>
      match service_taskDefinition svc with
      | None => (Raise (KeyError "taskDefinition"), w1)
      | Some td_name =>
          let r2 := DescribeTaskDefinition td_name in
          let w2 := record_call (ecs_client w) r2 w1 in
          match respond env (calls w1) (ecs_client w) r2 with
          | Raise e => (Raise e, w2)
          | Ok td => (scan_containers (containerDefinitions td), w2)
          end
      end
  end.
Proof.
  unfold get_log_group_name, mbind, M_bind, bind, gets, api_call, lift. simpl.
  destruct (respond env (calls w) (ecs_client w) _) as [[|svc others]|e];
    simpl; try reflexivity.
  destruct (service_taskDefinition svc) as [td_name|]; simpl;
    [|reflexivity].
  destruct (respond env _ (ecs_client w) (DescribeTaskDefinition td_name));
    reflexivity.
Qed.

Lemma resolve_describes env w cluster service td :
  describes env w cluster service td ->
  exists w1,
    get_log_group_name env cluster service w
      = (scan_containers (containerDefinitions td), w1) /\
    log_widget w1 = log_widget w.
Proof.
  intros (svc & others & td_name & H1 & Hsvc & H2).
  rewrite get_log_group_name_run. simpl. rewrite H1, Hsvc, H2.
  eexists. split; reflexivity.
Qed.

(** Containers that fail the tests of the loop are stepped over. *)
Lemma scan_skip before rest :
  no_awslogs before ->
  scan_containers (before ++ rest) = scan_containers rest.
Proof.
  induction 1 as [|d before Hd _ IH]; simpl; [reflexivity|].
  unfold uses_awslogs in Hd.
  destruct (logConfiguration d) as [lc|]; [|exact IH].
  rewrite Hd. exact IH.
Qed.

(** The first container that passes them decides: its group, or the
    [KeyError] of the subscript that fails. *)
Lemma scan_decide c rest :
  uses_awslogs c = true ->
  scan_containers (c :: rest) =
  match logConfiguration c with
  | Some lc =>
      match options lc with
      | Some opts =>
          match opts !! "awslogs-group" with
          | Some g => Ok g
          | None => Raise (KeyError "awslogs-group")
          end
      | None => Raise (KeyError "options")
      end
  | None => Ok ""
  end.
Proof.
  unfold uses_awslogs. simpl.
  destruct (logConfiguration c) as [lc|]; [|discriminate].
  intros ->. destruct (options lc) as [opts|]; [|reflexivity].
  simpl. unfold dict_getitem. destruct (opts !! "awslogs-group"); reflexivity.
Qed.

Lemma scan_no_awslogs defs : no_awslogs defs -> scan_containers defs = Ok "".
Proof.
  intros H. rewrite <- (app_nil_r defs). rewrite (scan_skip _ _ H).
  reflexivity.
Qed.

(** Either no container passes the tests, or there is a first one. *)
Lemma first_awslogs_dec defs :
  no_awslogs defs \/ exists c, first_awslogs defs c.
Proof.
  induction defs as [|d defs [IH|(c & before & after & -> & Hb & Hc)]].
  - left. constructor.
  - destruct (uses_awslogs d) eqn:Hd.
    + right. exists d, [], defs. repeat split; [constructor|exact Hd].
    + left. constructor; assumption.
  - destruct (uses_awslogs d) eqn:Hd.
    + right. exists d, [], (before ++ c :: after).
      repeat split; [constructor|exact Hd].
    + right. exists c, (d :: before), after.
      repeat split; [constructor; assumption|exact Hc].
Qed.

Lemma scan_first_awslogs defs c :
  first_awslogs defs c ->
  scan_containers defs =
  match declared_group c with
  | Some g => Ok g
  | None =>
      Raise (KeyError
        (match logConfiguration c ≫= options with
         | Some _ => "awslogs-group"
         | None => "options"
         end))
  end.
Proof.
  intros (before & after & -> & Hb & Hc).
  rewrite (scan_skip _ _ Hb), (scan_decide _ _ Hc).
  unfold declared_group, uses_awslogs in *.
  destruct (logConfiguration c) as [lc|]; [|discriminate]. simpl.
  destruct (options lc) as [opts|]; [|reflexivity]. simpl.
  destruct (opts !! "awslogs-group"); reflexivity.
Qed.

(** [load_logs], down to the fetch. *)
Lemma load_logs_run env w :
  load_logs env w =
  if opt_truthy (selected_cluster w) && opt_truthy (selected_service w) then
    match get_log_group_name env (default "" (selected_cluster w))
            (default "" (selected_service w)) (with_log_widget [] w) with
    | (Raise e, w1) => (Raise e, w1)
    | (Ok g, w1) =>
        if negb (str_truthy g) then
          (Ok tt,
           with_log_widget
             (log_widget w1
                ++ [Write "Could not find log group for this service."]) w1)
        else fetch_logs_guarded env g w1
    end
  else (Ok tt, w).
Proof.
  unfold load_logs, mbind, M_bind, bind, gets, log_clear, modify. simpl.
  destruct (opt_truthy (selected_cluster w) && opt_truthy (selected_service w));
    [|reflexivity].
  destruct (get_log_group_name env _ _ _) as [[g|e] w1]; [|reflexivity].
  destruct (negb (str_truthy g)); reflexivity.
Qed.

(** Where every ["awslogs"] container declares its group, the code and
    the rule of the specification agree. *)
Lemma scan_agrees_with_spec defs :
  Forall (fun d => uses_awslogs d = true -> is_Some (declared_group d)) defs ->
  scan_containers defs = Ok (default "" (spec_resolve defs)).
Proof.
  induction 1 as [|d defs Hd _ IH]; [reflexivity|].
  destruct (uses_awslogs d) eqn:Hu.
  - destruct (Hd eq_refl) as [g Hg].
    rewrite (scan_first_awslogs (d :: defs) d).
    + simpl. rewrite Hu, Hg. reflexivity.
    + exists [], defs. repeat split; [constructor|exact Hu].
  - change (d :: defs) with ([d] ++ defs) at 1.
    rewrite scan_skip by (repeat constructor; exact Hu).
    simpl. rewrite Hu. exact IH.
Qed.

(** C3, as the code has it. When the service and its task definition are
    described, the resolver returns the log group declared by the first
    container definition, in their order, whose log driver is ["awslogs"]
    -- provided that container declares the option -- whatever the
    containers after it say.  When no container definition has that
    driver the result is the empty string, and [load_logs] then writes the
    could-not-find message and returns normally. *)
Theorem resolve_first_awslogs env w cluster service td :
  describes env w cluster service td ->
  (forall c g,
     first_awslogs (containerDefinitions td) c ->
     declared_group c = Some g ->
     (get_log_group_name env cluster service w).1 = Ok g)
  /\
  (no_awslogs (containerDefinitions td) ->
   (get_log_group_name env cluster service w).1 = Ok "" /\
   (selected_cluster w = Some cluster ->
    selected_service w = Some service ->
    str_truthy cluster = true ->
    str_truthy service = true ->
    exists w',
      load_logs env w = (Ok tt, w') /\
      log_widget w' = [Write "Could not find log group for this service."])).
Proof.
  intros Hd. split.
  - intros c g Hfirst Hg.
    destruct (resolve_describes _ _ _ _ _ Hd) as (w1 & -> & _). simpl.
    rewrite (scan_first_awslogs _ _ Hfirst), Hg. reflexivity.
  - intros Hnone. split.
    + destruct (resolve_describes _ _ _ _ _ Hd) as (w1 & -> & _). simpl.
      apply scan_no_awslogs, Hnone.
    + intros Hc Hs Htc Hts.
      assert (Hd' : describes env (with_log_widget [] w) cluster service td)
        by exact Hd.
      destruct (resolve_describes _ _ _ _ _ Hd') as (w1 & Hrun & Hlog).
      rewrite load_logs_run, Hc, Hs. simpl. rewrite Htc, Hts. simpl.
      rewrite Hrun, (scan_no_awslogs _ Hnone). simpl.
      eexists. split; [reflexivity|]. simpl. rewrite Hlog. reflexivity.
Qed.

(** Service [web]: the group of container [web] is returned, not that of
    [metrics] after it.  Service [cron]: no group, and the message. *)
Lemma resolve_first_awslogs_witness :
  let w := with_selected_service (Some "cron")
             (with_selected_cluster (Some "api-cluster") initial) in
  describes Demo.env w "api-cluster" "web" Demo.web_task /\
  (get_log_group_name Demo.env "api-cluster" "web" w).1 = Ok "/ecs/web" /\
  describes Demo.env w "api-cluster" "cron" Demo.cron_task /\
  exists w',
    load_logs Demo.env w = (Ok tt, w') /\
    log_widget w' = [Write "Could not find log group for this service."].
Proof.
  intros w.
  assert (Hweb : describes Demo.env w "api-cluster" "web" Demo.web_task).
  { exists (mkService (Some "web:7")), [], "web:7". repeat split. }
  assert (Hcron : describes Demo.env w "api-cluster" "cron" Demo.cron_task).
  { exists (mkService (Some "cron:1")), [], "cron:1". repeat split. }
  split; [exact Hweb|]. split; [|split; [exact Hcron|]].
  - apply (proj1 (resolve_first_awslogs Demo.env w _ _ _ Hweb)
             (mkContainerDefinition "web" (Demo.awslogs_to "/ecs/web"))).
    + exists [mkContainerDefinition "proxy" None],
        [mkContainerDefinition "metrics" (Demo.awslogs_to "/ecs/metrics")].
      repeat split. repeat constructor.
    + reflexivity.
  - apply (proj2 (resolve_first_awslogs Demo.env w _ _ _ Hcron)).
    + repeat constructor.
    + reflexivity.
    + reflexivity.
    + reflexivity.
    + reflexivity.
Defined.

(** C3 fails as stated: in the task definition of [worker] the first
    container definition that has the ["awslogs"] driver and declares a
    log-group option is the second one, with group ["/ecs/worker"]; the
    resolver stops at the first ["awslogs"] container, which has no
    options, and raises [KeyError]. *)
Lemma resolve_stops_at_first_awslogs :
  describes Demo.env initial "api-cluster" "worker" Demo.worker_task /\
  spec_resolve (containerDefinitions Demo.worker_task) = Some "/ecs/worker" /\
  (get_log_group_name Demo.env "api-cluster" "worker" initial).1
    = Raise (KeyError "options").
Proof.
  split; [|split; reflexivity].
  exists (mkService (Some "worker:3")), [], "worker:3". repeat split.
Qed.

(** C10. The resolver is partial.  It raises [IndexError] when the
    description of the service holds no service; it raises [KeyError] when
    the first container definition with the ["awslogs"] driver has no
    options, or options without ["awslogs-group"].  When no container
    definition has the driver it returns the empty string; and whenever
    it returns a value, that value is either this empty string for want
    of such a container, or the group the first such container declares. *)
Theorem resolve_not_total env w cluster service :
  (respond env (calls w) (ecs_client w) (DescribeServices cluster [service])
     = Ok [] ->
   (get_log_group_name env cluster service w).1 = Raise IndexError)
  /\
  (forall td,
     describes env w cluster service td ->
     let result := (get_log_group_name env cluster service w).1 in
     (forall c lc,
        first_awslogs (containerDefinitions td) c ->
        logConfiguration c = Some lc ->
        (options lc = None -> result = Raise (KeyError "options")) /\
        (forall opts,
           options lc = Some opts ->
           opts !! "awslogs-group" = None ->
           result = Raise (KeyError "awslogs-group")))
     /\ (no_awslogs (containerDefinitions td) -> result = Ok "")
     /\ (forall g,
           result = Ok g ->
           (no_awslogs (containerDefinitions td) /\ g = "") \/
           (exists c,
              first_awslogs (containerDefinitions td) c /\
              declared_group c = Some g))).
Proof.
  split.
  - intros Hresp. rewrite get_log_group_name_run. simpl. rewrite Hresp.
    reflexivity.
  - intros td Hd result. subst result.
    destruct (resolve_describes _ _ _ _ _ Hd) as (w1 & -> & _). simpl.
    split; [|split].
    + intros c lc Hfirst Hlc.
      rewrite (scan_first_awslogs _ _ Hfirst). unfold declared_group.
      rewrite Hlc. simpl. split.
      * intros ->. reflexivity.
      * intros opts -> Hopts. simpl. rewrite Hopts. reflexivity.
    + apply scan_no_awslogs.
    + intros g Hg.
      destruct (first_awslogs_dec (containerDefinitions td)) as [Hn|[c Hc]].
      * left. split; [exact Hn|].
        rewrite (scan_no_awslogs _ Hn) in Hg. congruence.
      * right. exists c. split; [exact Hc|].
        rewrite (scan_first_awslogs _ _ Hc) in Hg.
        destruct (declared_group c); congruence.
Qed.

(** Service [ghost] does not exist: [IndexError].  Services [worker] and
    [legacy]: the two [KeyError]s. *)
Lemma resolve_not_total_witness :
  respond Demo.env (calls initial) (ecs_client initial)
    (DescribeServices "api-cluster" ["ghost"]) = Ok [] /\
  (get_log_group_name Demo.env "api-cluster" "ghost" initial).1
    = Raise IndexError /\
  describes Demo.env initial "api-cluster" "worker" Demo.worker_task /\
  (get_log_group_name Demo.env "api-cluster" "worker" initial).1
    = Raise (KeyError "options") /\
  describes Demo.env initial "api-cluster" "legacy" Demo.legacy_task /\
  (get_log_group_name Demo.env "api-cluster" "legacy" initial).1
    = Raise (KeyError "awslogs-group").
Proof.
  assert (Hworker :
    describes Demo.env initial "api-cluster" "worker" Demo.worker_task).
  { exists (mkService (Some "worker:3")), [], "worker:3". repeat split. }
  assert (Hlegacy :
    describes Demo.env initial "api-cluster" "legacy" Demo.legacy_task).
  { exists (mkService (Some "legacy:2")), [], "legacy:2". repeat split. }
  split; [reflexivity|]. split; [|split; [exact Hworker|split; [|split]]].
  - apply (proj1 (resolve_not_total Demo.env initial "api-cluster" "ghost")).
    reflexivity.
  - destruct (proj2 (resolve_not_total Demo.env initial "api-cluster" "worker")
                _ Hworker) as (Hkey & _).
    apply (Hkey (mkContainerDefinition "sidecar"
                   (Some (mkLogConfiguration "awslogs" None)))
                (mkLogConfiguration "awslogs" None)).
    + exists [], [mkContainerDefinition "worker"
                    (Demo.awslogs_to "/ecs/worker")].
      repeat split. constructor.
    + reflexivity.
    + reflexivity.
  - exact Hlegacy.
  - destruct (proj2 (resolve_not_total Demo.env initial "api-cluster" "legacy")
                _ Hlegacy) as (Hkey & _).
    eapply (Hkey (mkContainerDefinition "legacy" _) _).
    + exists [], []. repeat split. constructor.
    + reflexivity.
    + reflexivity.
    + reflexivity.
Defined.

(** ** Fetching the log records *)

(** The loop of [load_logs] writes the messages in the order of the
    batch. *)
Lemma write_lines_run events w :
  Forall (fun ev => is_Some (message ev)) events ->
  for_each events (fun event =>
    line ← lift (getitem "message" (message event));
    log_write_line line) w
  = (Ok tt,
     with_log_widget (log_widget w ++ map WriteLine (messages events)) w).
Proof.
  intros H. revert w. induction H as [|ev events [line Hline] _ IH];
    intros w; simpl.
  - unfold ret, with_log_widget. rewrite app_nil_r, World_eta. reflexivity.
  - unfold bind at 1, mbind, M_bind, bind, lift, messages. simpl.
    rewrite Hline. simpl. rewrite IH.
    unfold with_log_widget, messages; simpl. rewrite <- app_assoc.
    reflexivity.
Qed.

(** The body of the [try] block, by the answers to its requests. *)
Lemma fetch_logs_run env g w :
  fetch_logs env g w =
  let r1 := DescribeLogStreams g "LastEventTime" true 1 in
  let w1 := record_call (logs_client w) r1 w in
  match respond env (calls w) (logs_client w) r1 with
  | Raise e => (Raise e, w1)
  | Ok [] =>
      (Ok tt,
       with_log_widget
         (log_widget w ++ [Write "No log streams found for this service."])
         w1)
  | Ok (stream :: _) =>
      match logStreamName stream with
      | None => (Raise (KeyError "logStreamName"), w1)
      | Some name =>
          let r2 := GetLogEvents g name 100 in
          let w2 := record_call (logs_client w) r2 w1 in
          match respond env (calls w1) (logs_client w) r2 with
          | Raise e => (Raise e, w2)
          | Ok events =>
              for_each events (fun event =>
                line ← lift (getitem "message" (message event));
                log_write_line line) w2
          end
      end
  end.
Proof.
  unfold fetch_logs, mbind, M_bind, bind, gets, api_call, lift. simpl.
  destruct (respond env (calls w) (logs_client w) _) as [[|stream rest]|e];
    simpl; try reflexivity.
  destruct (logStreamName stream) as [name|]; simpl; [|reflexivity].
  destruct (respond env _ (logs_client w) (GetLogEvents g name 100));
    reflexivity.
Qed.

(** Whatever the [try] block does, the statement returns normally. *)
Lemma fetch_logs_guarded_returns env g w :
  exists w', fetch_logs_guarded env g w = (Ok tt, w').
Proof.
  unfold fetch_logs_guarded, try_except.
  destruct (fetch_logs env g w) as [[[]|e] w1]; eexists; reflexivity.
Qed.

(** C5. Given a log group, the fetch always returns normally.  It asks for
    the one stream with the latest event ([orderBy="LastEventTime"],
    [descending=True], [limit=1]).  If the answer holds no stream, the log
    view receives the no-log-streams message.  Otherwise it asks for the
    events of the first stream of the answer with [limit=100]; the lines
    written are the messages of that answer, in its order -- at most 100,
    since the service honours [limit].  If either request raises, the log
    view receives one message that carries the text of the exception. *)
Theorem fetch_logs_guarded_spec env w g :
  honours_limit env ->
  let r1 := DescribeLogStreams g "LastEventTime" true 1 in
  let w1 := record_call (logs_client w) r1 w in
  exists w',
    fetch_logs_guarded env g w = (Ok tt, w') /\
    match respond env (calls w) (logs_client w) r1 with
    | Raise e =>
        log_widget w'
          = log_widget w ++ [Write ("Error fetching logs: " +:+ str_exn e)]
    | Ok [] =>
        log_widget w'
          = log_widget w ++ [Write "No log streams found for this service."]
    | Ok (stream :: _) =>
        forall name,
          logStreamName stream = Some name ->
          match respond env (calls w1) (logs_client w)
                  (GetLogEvents g name 100) with
          | Raise e =>
              log_widget w'
                = log_widget w
                    ++ [Write ("Error fetching logs: " +:+ str_exn e)]
          | Ok events =>
              List.length events <= 100 /\
              (Forall (fun ev => is_Some (message ev)) events ->
               log_widget w'
                 = log_widget w ++ map WriteLine (messages events))
          end
    end.
Proof.
  intros Hlimit r1 w1.
  destruct (fetch_logs_guarded_returns env g w) as [w' Hrun].
  exists w'. split; [exact Hrun|].
  unfold fetch_logs_guarded, try_except in Hrun.
  rewrite fetch_logs_run in Hrun. cbv zeta in Hrun. fold r1 in Hrun.
  destruct (respond env (calls w) (logs_client w) r1) as [[|stream rest]|e].
  - injection Hrun as <-. reflexivity.
  - intros name Hname. rewrite Hname in Hrun. fold w1 in Hrun.
    destruct (respond env (calls w1) (logs_client w) (GetLogEvents g name 100))
      as [events|e] eqn:Hev.
    + split; [exact (Hlimit _ _ _ _ _ _ Hev)|].
      intros Hmsg. rewrite (write_lines_run _ _ Hmsg) in Hrun.
      injection Hrun as <-. reflexivity.
    + injection Hrun as <-. reflexivity.
  - injection Hrun as <-. reflexivity.
Qed.

Lemma demo_honours_limit : honours_limit Demo.env.
Proof.
  intros history c g s n events. simpl.
  destruct (String.eqb g "/ecs/web" && String.eqb s "web/web/4f1c");
    [|discriminate].
  intros [= <-]. unfold Demo.latest. rewrite length_drop. lia.
Qed.

(** The three lines of [web], a group without streams, and a group that
    does not exist. *)
Lemma fetch_logs_guarded_spec_witness :
  honours_limit Demo.env /\
  (exists w',
     fetch_logs_guarded Demo.env "/ecs/web" initial = (Ok tt, w') /\
     log_widget w' = [ WriteLine "starting"; WriteLine "listening on :8080";
                       WriteLine "GET /health 200" ]) /\
  (exists w',
     fetch_logs_guarded Demo.env "/ecs/metrics" initial = (Ok tt, w') /\
     log_widget w' = [Write "No log streams found for this service."]) /\
  (exists w',
     fetch_logs_guarded Demo.env "/ecs/none" initial = (Ok tt, w') /\
     log_widget w'
       = [Write "Error fetching logs: ResourceNotFoundException"]).
Proof.
  split; [exact demo_honours_limit|]. split; [|split].
  - destruct (fetch_logs_guarded_spec Demo.env initial "/ecs/web"
                demo_honours_limit) as (w' & Hrun & Hlog).
    exists w'. split; [exact Hrun|].
    destruct (Hlog "web/web/4f1c" eq_refl) as [_ Hlines].
    apply Hlines. repeat constructor; eexists; reflexivity.
  - destruct (fetch_logs_guarded_spec Demo.env initial "/ecs/metrics"
                demo_honours_limit) as (w' & Hrun & Hlog).
    exists w'. split; [exact Hrun|exact Hlog].
  - destruct (fetch_logs_guarded_spec Demo.env initial "/ecs/none"
                demo_honours_limit) as (w' & Hrun & Hlog).
    exists w'. split; [exact Hrun|exact Hlog].
Defined.

(** ** Two region switches in a row *)

(** The handlers run one after the other, so the listing of the first
    switch has been applied before the second switch starts; when the
    listing of the second switch answers, the cluster list holds its
    identifiers and nothing of the first. *)
Lemma later_region_switch_decides env w r1 r2 arns :
  valid_region_name env r2 = true ->
  let w1 := (select_changed env r1 w).2 in
  respond env (calls w1) (mkClient "ecs" r2) ListClusters = Ok arns ->
  clusters_list (select_changed env r2 w1).2
    = map (fun arn => ECSClusterItem (basename arn)) arns.
Proof.
  intros Hvalid w1 Hresp.
  rewrite select_changed_run, Hvalid, load_clusters_run. simpl.
  rewrite Hresp. reflexivity.
Qed.

(** The scenario of the demo account: one service opened in the default
    region shows exactly the three lines of its latest stream. *)
Example browsing_shows_three_lines :
  clusters_list Demo.browsing
    = [ECSClusterItem "api-cluster"; ECSClusterItem "batch"] /\
  services_list Demo.browsing
    = [ECSServiceItem "web"; ECSServiceItem "worker"] /\
  log_widget Demo.browsing
    = [ WriteLine "starting"; WriteLine "listening on :8080";
        WriteLine "GET /health 200" ].
Proof. vm_compute. repeat split. Qed.

(** * Further properties of the code *)

(** ** The derived identifier, for names of any shape *)

(** A name that holds the separator splits at its last occurrence. *)
Lemma occurs_last sep s :
  occurs sep s = true ->
  exists prefix id, s = prefix +:+ String sep id /\ occurs sep id = false.
Proof.
  induction s as [|c s IH]; simpl; [discriminate|].
  destruct (occurs sep s) eqn:Hs.
  - intros _. destruct (IH eq_refl) as (prefix & id & -> & Hid).
    exists (String c prefix), id. split; [reflexivity|exact Hid].
  - rewrite orb_false_r. intros Hc. apply Ascii.eqb_eq in Hc as ->.
    exists EmptyString, s. split; [reflexivity|exact Hs].
Qed.

(** X1. For a name of any shape, the identifier [arn.split("/")[-1]] holds
    no ['/']; it is the whole name when the name holds no ['/'], and
    otherwise the name is some prefix, a ['/'], and the identifier. *)
Theorem basename_spec arn :
  last_segment arn = Ok (basename arn) /\
  occurs "/" (basename arn) = false /\
  (if occurs "/" arn
   then exists prefix, arn = prefix +:+ "/" +:+ basename arn
   else basename arn = arn).
Proof.
  split; [apply last_segment_basename|].
  destruct (occurs "/" arn) eqn:Harn.
  - destruct (occurs_last _ _ Harn) as (prefix & id & -> & Hid).
    pose proof (basename_qualified (prefix, id) Hid) as Hb.
    unfold qualified in Hb. simpl in Hb.
    change (prefix +:+ String "/" id) with (prefix +:+ "/" +:+ id).
    rewrite Hb. split; [exact Hid|]. exists prefix. reflexivity.
  - unfold basename. rewrite (split_no_sep _ _ Harn). simpl.
    split; [exact Harn|reflexivity].
Qed.

(** X2. A name that ends in ['/'] yields the empty identifier; selecting
    the item made from it records the selection but issues no request and
    leaves the service list alone, because the empty string is false. *)
Theorem trailing_slash_item env w prefix :
  basename (prefix +:+ "/") = "" /\
  on_list_view_selected env (ECSClusterItem (basename (prefix +:+ "/"))) w
    = (Ok tt, with_btn_cluster "" (with_selected_cluster (Some "") w)).
Proof.
  assert (H : basename (prefix +:+ "/") = "").
  { exact (basename_qualified (prefix, "") eq_refl). }
  split; [exact H|]. rewrite H, select_cluster_run, load_services_run.
  reflexivity.
Qed.

(** ** What can leave the two listing loaders *)

(** X3. Whatever the shape of the listed names, the only exception that
    can leave [load_clusters] or [load_services] is the one raised by the
    listing call itself: the [[-1]] subscript never fails.  When the call
    answers, the list view holds one item per name, in order. *)
Theorem loaders_raise_only_listing_errors env w :
  (load_clusters env w).1 =
    match respond env (calls w) (ecs_client w) ListClusters with
    | Ok _ => Ok tt
    | Raise e => Raise e
    end
  /\ (forall arns,
        respond env (calls w) (ecs_client w) ListClusters = Ok arns ->
        List.length (clusters_list (load_clusters env w).2)
          = List.length arns)
  /\ (forall cluster,
        selected_cluster w = Some cluster ->
        str_truthy cluster = true ->
        (load_services env w).1 =
          match respond env (calls w) (ecs_client w) (ListServices cluster)
          with
          | Ok _ => Ok tt
          | Raise e => Raise e
          end
        /\ forall arns,
             respond env (calls w) (ecs_client w) (ListServices cluster)
               = Ok arns ->
             List.length (services_list (load_services env w).2)
               = List.length arns).
Proof.
  split; [|split].
  - rewrite load_clusters_run. simpl.
    destruct (respond env (calls w) (ecs_client w) ListClusters); reflexivity.
  - intros arns H. rewrite load_clusters_run, H. simpl. apply length_map.
  - intros cluster Hsel Ht. rewrite load_services_run, Hsel. simpl.
    rewrite Ht. split.
    + destruct (respond env (calls w) (ecs_client w) (ListServices cluster));
        reflexivity.
    + intros arns H. rewrite H. simpl. apply length_map.
Qed.

(** One service listed for the selected cluster [main]. *)
Lemma loaders_raise_only_listing_errors_witness :
  let w := with_selected_cluster (Some "main") initial in
  selected_cluster w = Some "main" /\
  (load_services Faulty.env w).1 = Ok tt /\
  List.length (services_list (load_services Faulty.env w).2) = 1.
Proof.
  intros w.
  destruct (loaders_raise_only_listing_errors Faulty.env w) as (_ & _ & H).
  destruct (H "main" eq_refl eq_refl) as [Hres Hlen].
  split; [reflexivity|]. split; [exact Hres|].
  apply (Hlen ["service/main/app"]). reflexivity.
Defined.

(** ** A region name that the client factory refuses *)

(** X4. When the region name is refused, [select_changed] raises
    [InvalidRegionError] before any client is replaced and before any
    request is issued; but the title has already been set to the refused
    name.  Nothing else changes. *)
Theorem refused_region_changes_title_only env w val :
  valid_region_name env val = false ->
  select_changed env val w
    = (Raise (InvalidRegionError val), with_title val w) /\
  title (select_changed env val w).2 = val /\
  clients (select_changed env val w).2 = clients w /\
  calls (select_changed env val w).2 = calls w.
Proof.
  intros H. rewrite select_changed_run, H. repeat split.
Qed.

(** The blank entry of the region selector, in the demo account. *)
Lemma refused_region_changes_title_only_witness :
  valid_region_name Demo.env "Select.BLANK" = false /\
  title (select_changed Demo.env "Select.BLANK" Demo.browsing).2
    = "Select.BLANK" /\
  clients (select_changed Demo.env "Select.BLANK" Demo.browsing).2
    = (mkClient "ecs" "us-east-1", mkClient "logs" "us-east-1").
Proof.
  split; [reflexivity|].
  destruct (refused_region_changes_title_only Demo.env Demo.browsing
              "Select.BLANK" eq_refl) as (_ & Ht & Hc & _).
  split; [exact Ht|]. rewrite Hc. reflexivity.
Defined.

(** ** Which event writes which attribute *)

(** The attributes that [load_logs] cannot write, as one observation. *)
Lemma select_service_frame env n w :
  let w' := (on_list_view_selected env (ECSServiceItem n) w).2 in
  (title w', selected_cluster w', btn_cluster w', selected_service w',
   btn_service w', clusters_list w', services_list w')
  = (title w, selected_cluster w, btn_cluster w, Some n, n,
     clusters_list w, services_list w).
Proof.
  exact (load_logs_frame
           (fun w => (title w, selected_cluster w, btn_cluster w,
                      selected_service w, btn_service w, clusters_list w,
                      services_list w))
           env (fun _ _ => eq_refl) (fun _ _ _ => eq_refl)
           (with_btn_service n (with_selected_service (Some n) w))).
Qed.

(** The effect of one event on each attribute. *)
Lemma event_effect env ev w :
  let w' := (handle env ev w).2 in
  selected_cluster w' =
    match ev with
    | ListViewSelected (ECSClusterItem n) => Some n
    | _ => selected_cluster w
    end /\
  btn_cluster w' =
    match ev with
    | ListViewSelected (ECSClusterItem n) => n
    | _ => btn_cluster w
    end /\
  selected_service w' =
    match ev with
    | ListViewSelected (ECSServiceItem n) => Some n
    | _ => selected_service w
    end /\
  btn_service w' =
    match ev with
    | ListViewSelected (ECSServiceItem n) => n
    | _ => btn_service w
    end /\
  title w' =
    match ev with
    | SelectChanged val => val
    | _ => title w
    end /\
  match ev with
  | Mount | SelectChanged _ => True
  | _ => clusters_list w' = clusters_list w
  end /\
  match ev with
  | ListViewSelected (ECSClusterItem _) => True
  | _ => services_list w' = services_list w
  end /\
  match ev with
  | ListViewSelected (ECSServiceItem _) => True
  | _ => log_widget w' = log_widget w
  end.
Proof.
  destruct ev as [|val|[label|n|n]|]; cbn [handle].
  - unfold on_mount. rewrite load_clusters_run. simpl.
    destruct (respond env (calls w) (ecs_client w) ListClusters);
      repeat split.
  - rewrite select_changed_run.
    destruct (valid_region_name env val); [|repeat split].
    rewrite load_clusters_run. simpl.
    destruct (respond env (calls w) (mkClient "ecs" val) ListClusters);
      repeat split.
  - repeat split.
  - rewrite select_cluster_run, load_services_run. simpl.
    destruct (str_truthy n); [|repeat split].
    destruct (respond env (calls w) (ecs_client w) (ListServices n));
      repeat split.
  - pose proof (select_service_frame env n w) as H. cbv zeta in H.
    set (w' := (on_list_view_selected env (ECSServiceItem n) w).2) in *.
    clearbody w'. injection H as Ht Hsc Hbc Hss Hbs Hcl Hsl.
    repeat split; assumption.
  - rewrite on_click_run. repeat split.
Qed.


(** X5. Each attribute has its writers and no others.  The selected
    cluster and the cluster of the button are written only by the
    selection of a cluster item, the selected service and the service of
    the button only by the selection of a service item, the title only by
    a region switch; the cluster list is written only at start-up and by a
    region switch, the service list only by the selection of a cluster
    item, the log view only by the selection of a service item.  In
    particular no event ever resets a selection to [None]. *)
Theorem handle_writes env ev w :
  let w' := (handle env ev w).2 in
  selected_cluster w' =
    match ev with
    | ListViewSelected (ECSClusterItem n) => Some n
    | _ => selected_cluster w
    end /\
  btn_cluster w' =
    match ev with
    | ListViewSelected (ECSClusterItem n) => n
    | _ => btn_cluster w
    end /\
  selected_service w' =
    match ev with
    | ListViewSelected (ECSServiceItem n) => Some n
    | _ => selected_service w
    end /\
  btn_service w' =
    match ev with
    | ListViewSelected (ECSServiceItem n) => n
    | _ => btn_service w
    end /\
  title w' =
    match ev with
    | SelectChanged val => val
    | _ => title w
    end /\
  match ev with
  | Mount | SelectChanged _ => True
  | _ => clusters_list w' = clusters_list w
  end /\
  match ev with
  | ListViewSelected (ECSClusterItem _) => True
  | _ => services_list w' = services_list w
  end /\
  match ev with
  | ListViewSelected (ECSServiceItem _) => True
  | _ => log_widget w' = log_widget w
  end.
Proof. exact (event_effect env ev w). Qed.

(** ** Invariants of the session *)

Lemma run_invariant (P : World -> Prop) env :
  (forall ev w, P w -> P (handle env ev w).2) ->
  forall evs w, P w -> P (run env evs w).2.
Proof.
  intros Hstep evs. induction evs as [|ev evs IH]; intros w Hw; [exact Hw|].
  pose proof (Hstep ev w Hw) as H1.
  unfold run in *. simpl. unfold bind.
  destruct (handle env ev w) as [[[]|e] w1]; simpl in *; auto.
Qed.

Lemma reachable_invariant (P : World -> Prop) env :
  P initial ->
  (forall ev w, P w -> P (handle env ev w).2) ->
  forall w, reachable env w -> P w.
Proof.
  intros H0 Hstep w [evs <-]. apply run_invariant; assumption.
Qed.

(** X6. In every state of the session the redeploy button holds exactly
    the current selection -- the empty string where nothing is selected
    yet -- so a click asks, on the ECS handle bound at that moment, for
    the redeployment of the selected service in the selected cluster. *)
Theorem button_mirrors_selection env w :
  reachable env w ->
  btn_cluster w = default "" (selected_cluster w) /\
  btn_service w = default "" (selected_service w) /\
  calls (on_click env w).2
    = calls w ++ [mkCall (ecs_client w)
                    (UpdateService (default "" (selected_cluster w))
                       (default "" (selected_service w)) true)].
Proof.
  intros Hw.
  assert (H : btn_cluster w = default "" (selected_cluster w) /\
              btn_service w = default "" (selected_service w)).
  { revert w Hw. apply reachable_invariant; [split; reflexivity|].
    intros ev w [Hc Hs].
    destruct (event_effect env ev w) as (H1 & H2 & H3 & H4 & _).
    rewrite H1, H2, H3, H4.
    destruct ev as [|val|[label|n|n]|]; split; simpl; auto. }
  destruct H as [Hc Hs]. split; [exact Hc|]. split; [exact Hs|].
  rewrite on_click_run. simpl. rewrite Hc, Hs. reflexivity.
Qed.

(** After the cluster was changed over an open service, the button -- and
    the request of a click -- name the new cluster with the old service. *)
Lemma button_mirrors_selection_witness :
  let w := (run Demo.env
              [ Mount; ListViewSelected (ECSClusterItem "api-cluster");
                ListViewSelected (ECSServiceItem "web");
                ListViewSelected (ECSClusterItem "batch") ] initial).2 in
  reachable Demo.env w /\
  btn_cluster w = "batch" /\ btn_service w = "web".
Proof.
  intros w.
  assert (Hw : reachable Demo.env w).
  { exists [ Mount; ListViewSelected (ECSClusterItem "api-cluster");
             ListViewSelected (ECSServiceItem "web");
             ListViewSelected (ECSClusterItem "batch") ].
    reflexivity. }
  destruct (button_mirrors_selection Demo.env w Hw) as (Hc & Hs & _).
  split; [exact Hw|]. split.
  - rewrite Hc. vm_compute. reflexivity.
  - rewrite Hs. vm_compute. reflexivity.
Defined.

(** What an event can do to the two list views. *)
Lemma handle_list_views env ev w :
  let w' := (handle env ev w).2 in
  (clusters_list w' = clusters_list w \/
   exists names, clusters_list w' = map ECSClusterItem names) /\
  (services_list w' = services_list w \/
   exists names, services_list w' = map ECSServiceItem names).
Proof.
  destruct (event_effect env ev w) as (_ & _ & _ & _ & _ & Hcl & Hsl & _).
  destruct ev as [|val|[label|n|n]|]; cbn [handle] in *;
    try (split; left; assumption).
  - split; [|left; assumption]. unfold on_mount.
    rewrite load_clusters_run. simpl.
    destruct (respond env (calls w) (ecs_client w) ListClusters) as [arns|e];
      [right|left; reflexivity].
    exists (map basename arns). simpl. rewrite map_map. reflexivity.
  - split; [|left; assumption]. rewrite select_changed_run.
    destruct (valid_region_name env val); [|left; reflexivity].
    rewrite load_clusters_run. simpl.
    destruct (respond env (calls w) (mkClient "ecs" val) ListClusters)
      as [arns|e]; [right|left; reflexivity].
    exists (map basename arns). simpl. rewrite map_map. reflexivity.
  - split; [left; assumption|].
    rewrite select_cluster_run, load_services_run. simpl.
    destruct (str_truthy n); [|left; reflexivity].
    destruct (respond env (calls w) (ecs_client w) (ListServices n))
      as [arns|e]; [right|left; reflexivity].
    exists (map basename arns). simpl. rewrite map_map. reflexivity.
Qed.

Lemma cluster_items_only names :
  forallb is_cluster_item (map ECSClusterItem names) = true.
Proof. induction names; simpl; auto. Qed.

Lemma service_items_only names :
  forallb is_service_item (map ECSServiceItem names) = true.
Proof. induction names; simpl; auto. Qed.

(** X7. In every state of the session the cluster list is either the
    heading placed by [compose] or holds cluster items only, and the
    service list is either its heading or holds service items only: no
    loader ever mixes headings, cluster items and service items. *)
Theorem list_views_hold_their_items env w :
  reachable env w ->
  (clusters_list w = [PlainItem "Clusters"] \/
   forallb is_cluster_item (clusters_list w) = true) /\
  (services_list w = [PlainItem "Services"] \/
   forallb is_service_item (services_list w) = true).
Proof.
  revert w. apply reachable_invariant.
  - split; left; reflexivity.
  - intros ev w [Hc Hs].
    destruct (handle_list_views env ev w) as [Hc' Hs']. split.
    + destruct Hc' as [-> |[names ->]]; [exact Hc|].
      right. apply cluster_items_only.
    + destruct Hs' as [-> |[names ->]]; [exact Hs|].
      right. apply service_items_only.
Qed.

(** After start-up the heading of the cluster list is gone. *)
Lemma list_views_hold_their_items_witness :
  reachable Demo.env Demo.browsing /\
  forallb is_cluster_item (clusters_list Demo.browsing) = true /\
  forallb is_service_item (services_list Demo.browsing) = true.
Proof.
  assert (Hw : reachable Demo.env Demo.browsing).
  { exists [ Mount; ListViewSelected (ECSClusterItem "api-cluster");
             ListViewSelected (ECSServiceItem "web") ].
    unfold Demo.browsing. reflexivity. }
  split; [exact Hw|].
  destruct (list_views_hold_their_items Demo.env _ Hw) as [[Hc|Hc] [Hs|Hs]];
    try (vm_compute in Hc; discriminate Hc);
    try (vm_compute in Hs; discriminate Hs).
  split; assumption.
Defined.

(** ** Opening a service: resolution, then fetch *)

(** [get_log_group_name] writes nothing but the record of its calls. *)
Lemma get_log_group_name_frame {X} (f : World -> X) env cluster service :
  (forall c r w, f (record_call c r w) = f w) ->
  respects (unchanged f) (get_log_group_name env cluster service).
Proof.
  intros Hcall. unfold get_log_group_name.
  frame_steps; apply Hcall.
Qed.

(** X8. A failure of the resolution is not caught by [load_logs]: whatever
    exception leaves [get_log_group_name] -- a failing ECS call, the
    [IndexError] of an unknown service, a [KeyError] -- leaves [load_logs]
    too, and the log view, cleared before the resolution started, is left
    empty. *)
Theorem resolution_failure_propagates env w cluster service e w1 :
  selected_cluster w = Some cluster ->
  selected_service w = Some service ->
  str_truthy cluster = true ->
  str_truthy service = true ->
  get_log_group_name env cluster service (with_log_widget [] w)
    = (Raise e, w1) ->
  load_logs env w = (Raise e, w1) /\ log_widget w1 = [].
Proof.
  intros Hc Hs Htc Hts Hrun. split.
  - rewrite load_logs_run, Hc, Hs. simpl. rewrite Htc, Hts. simpl.
    rewrite Hrun. reflexivity.
  - pose proof (get_log_group_name_frame log_widget env cluster service
                  (fun _ _ _ => eq_refl) (with_log_widget [] w)) as H.
    rewrite Hrun in H. exact H.
Qed.

(** Opening the unknown service [ghost] over the lines of [web]. *)
Lemma resolution_failure_propagates_witness :
  let w := with_selected_service (Some "ghost") Demo.browsing in
  exists w1,
    load_logs Demo.env w = (Raise IndexError, w1) /\ log_widget w1 = [].
Proof.
  intros w.
  destruct (get_log_group_name Demo.env "api-cluster" "ghost"
              (with_log_widget [] w)) as [r w1] eqn:Hrun.
  assert (Hr : r = Raise IndexError).
  { apply (f_equal fst) in Hrun. vm_compute in Hrun. symmetry. exact Hrun. }
  subst r. exists w1.
  apply (resolution_failure_propagates Demo.env w "api-cluster" "ghost");
    first [exact Hrun | vm_compute; reflexivity].
Defined.

(** X9. Opening a service, when everything answers: [load_logs] issues
    exactly four requests, in this order -- the description of the
    service and of its task definition on the ECS handle, then the latest
    stream and its events on the logs handle -- and the log view holds
    exactly the messages of the events, in their order, whatever it held
    before. *)
Theorem load_logs_shows_latest env w cluster service svc others td_name td
    c g stream streams name events :
  let c1 := mkCall (ecs_client w) (DescribeServices cluster [service]) in
  let c2 := mkCall (ecs_client w) (DescribeTaskDefinition td_name) in
  let c3 := mkCall (logs_client w)
              (DescribeLogStreams g "LastEventTime" true 1) in
  let c4 := mkCall (logs_client w) (GetLogEvents g name 100) in
  selected_cluster w = Some cluster ->
  selected_service w = Some service ->
  str_truthy cluster = true ->
  str_truthy service = true ->
  respond env (calls w) (ecs_client w) (DescribeServices cluster [service])
    = Ok (svc :: others) ->
  service_taskDefinition svc = Some td_name ->
  respond env (calls w ++ [c1]) (ecs_client w)
    (DescribeTaskDefinition td_name) = Ok td ->
  first_awslogs (containerDefinitions td) c ->
  declared_group c = Some g ->
  str_truthy g = true ->
  respond env (calls w ++ [c1; c2]) (logs_client w)
    (DescribeLogStreams g "LastEventTime" true 1) = Ok (stream :: streams) ->
  logStreamName stream = Some name ->
  respond env (calls w ++ [c1; c2; c3]) (logs_client w)
    (GetLogEvents g name 100) = Ok events ->
  Forall (fun ev => is_Some (message ev)) events ->
  exists w',
    load_logs env w = (Ok tt, w') /\
    log_widget w' = map WriteLine (messages events) /\
    calls w' = calls w ++ [c1; c2; c3; c4].
Proof.
  intros c1 c2 c3 c4 Hc Hs Htc Hts H1 Hsvc H2 Hfirst Hg Htg H3 Hname H4 Hmsg.
  rewrite load_logs_run, Hc, Hs. simpl. rewrite Htc, Hts. simpl.
  rewrite get_log_group_name_run. simpl. rewrite H1, Hsvc. fold c1.
  rewrite H2, (scan_first_awslogs _ _ Hfirst), Hg, Htg. simpl.
  unfold fetch_logs_guarded, try_except. rewrite fetch_logs_run. simpl.
  fold c1 c2. rewrite <- !app_assoc. simpl. rewrite H3, Hname. fold c3.
  rewrite H4, (write_lines_run _ _ Hmsg).
  eexists. split; [reflexivity|]. simpl.
  rewrite <- !app_assoc. split; reflexivity.
Qed.

(** Service [web] of the demo account, opened over older lines. *)
Lemma load_logs_shows_latest_witness :
  let w := with_log_widget [Write "older"]
             (with_selected_service (Some "web")
                (with_selected_cluster (Some "api-cluster") initial)) in
  exists w',
    load_logs Demo.env w = (Ok tt, w') /\
    log_widget w' = [ WriteLine "starting"; WriteLine "listening on :8080";
                      WriteLine "GET /health 200" ] /\
    List.length (calls w') = 4.
Proof.
  intros w.
  destruct (load_logs_shows_latest Demo.env w "api-cluster" "web"
              (mkService (Some "web:7")) [] "web:7" Demo.web_task
              (mkContainerDefinition "web" (Demo.awslogs_to "/ecs/web"))
              "/ecs/web" (mkLogStream (Some "web/web/4f1c")) []
              "web/web/4f1c" Demo.web_events)
    as (w' & Hrun & Hlog & Hcalls); try reflexivity.
  - exists [mkContainerDefinition "proxy" None],
      [mkContainerDefinition "metrics" (Demo.awslogs_to "/ecs/metrics")].
    repeat split. repeat constructor.
  - repeat constructor; eexists; reflexivity.
  - exists w'. split; [exact Hrun|]. split; [exact Hlog|].
    rewrite Hcalls. reflexivity.
Defined.

(** The loop of [load_logs] stops at the first event without a message,
    with the lines before it written. *)
Lemma write_lines_stop before ev after w :
  Forall (fun ev => is_Some (message ev)) before ->
  message ev = None ->
  for_each (before ++ ev :: after) (fun event =>
    line ← lift (getitem "message" (message event));
    log_write_line line) w
  = (Raise (KeyError "message"),
     with_log_widget (log_widget w ++ map WriteLine (messages before)) w).
Proof.
  intros H Hev. revert w. induction H as [|e0 before [line Hline] _ IH];
    intros w; simpl.
  - unfold bind at 1, mbind, M_bind, bind, lift. rewrite Hev. simpl.
    unfold with_log_widget. rewrite app_nil_r, World_eta. reflexivity.
  - unfold bind at 1, mbind, M_bind, bind, lift, messages. simpl.
    rewrite Hline. simpl. rewrite IH.
    unfold with_log_widget, messages; simpl. rewrite <- app_assoc.
    reflexivity.
Qed.

(** X10. An event without a ["message"] key stops the batch: the lines of
    the events before it stay in the log view, the [KeyError] is caught
    like a failure of the service, and the view ends with the
    error-fetching message; the events after it are never written. *)
Theorem missing_message_stops_the_batch env w g stream streams name
    before ev after :
  respond env (calls w) (logs_client w)
    (DescribeLogStreams g "LastEventTime" true 1) = Ok (stream :: streams) ->
  logStreamName stream = Some name ->
  respond env
    (calls w ++ [mkCall (logs_client w)
                   (DescribeLogStreams g "LastEventTime" true 1)])
    (logs_client w) (GetLogEvents g name 100)
    = Ok (before ++ ev :: after) ->
  Forall (fun ev => is_Some (message ev)) before ->
  message ev = None ->
  exists w',
    fetch_logs_guarded env g w = (Ok tt, w') /\
    log_widget w'
      = log_widget w ++ map WriteLine (messages before)
          ++ [Write "Error fetching logs: 'message'"].
Proof.
  intros H1 Hname H2 Hbefore Hev.
  unfold fetch_logs_guarded, try_except. rewrite fetch_logs_run. simpl.
  rewrite H1, Hname, H2, (write_lines_stop _ _ _ _ Hbefore Hev).
  eexists. split; [reflexivity|]. simpl. rewrite <- app_assoc. reflexivity.
Qed.

(** The batch [boot], (no message), [ready]. *)
Lemma missing_message_stops_the_batch_witness :
  exists w',
    fetch_logs_guarded Faulty.env "/ecs/gap" initial = (Ok tt, w') /\
    log_widget w'
      = [WriteLine "boot"; Write "Error fetching logs: 'message'"].
Proof.
  apply (missing_message_stops_the_batch Faulty.env initial "/ecs/gap"
           (mkLogStream (Some "app/1")) [] "app/1"
           [mkOutputLogEvent 7 (Some "boot")] (mkOutputLogEvent 8 None)
           [mkOutputLogEvent 9 (Some "ready")]);
    try reflexivity.
  repeat constructor. eexists; reflexivity.
Defined.

(** X11. A stream description without a ["logStreamName"] key is reported
    as a fetch error: the [KeyError] is caught, the log view receives the
    error-fetching message, and no request for events is issued. *)
Theorem missing_stream_name_is_reported env w g stream streams :
  respond env (calls w) (logs_client w)
    (DescribeLogStreams g "LastEventTime" true 1) = Ok (stream :: streams) ->
  logStreamName stream = None ->
  exists w',
    fetch_logs_guarded env g w = (Ok tt, w') /\
    log_widget w'
      = log_widget w ++ [Write "Error fetching logs: 'logStreamName'"] /\
    calls w'
      = calls w ++ [mkCall (logs_client w)
                      (DescribeLogStreams g "LastEventTime" true 1)].
Proof.
  intros H1 Hname.
  unfold fetch_logs_guarded, try_except. rewrite fetch_logs_run. simpl.
  rewrite H1, Hname. eexists. repeat split.
Qed.

Lemma missing_stream_name_is_reported_witness :
  exists w',
    fetch_logs_guarded Faulty.env "/ecs/other" initial = (Ok tt, w') /\
    log_widget w' = [Write "Error fetching logs: 'logStreamName'"] /\
    List.length (calls w') = 1.
Proof.
  destruct (missing_stream_name_is_reported Faulty.env initial "/ecs/other"
              (mkLogStream None) [] eq_refl eq_refl)
    as (w' & Hrun & Hlog & Hcalls).
  exists w'. split; [exact Hrun|]. split; [exact Hlog|].
  rewrite Hcalls. reflexivity.
Defined.

(** ** The requests of a session *)

Lemma issues_same P n w w' :
  clients w' = clients w -> calls w' = calls w -> issues P n w w'.
Proof.
  intros Hc Hcalls. split; [exact Hc|]. exists [].
  rewrite app_nil_r. repeat split; [exact Hcalls|simpl; lia|constructor].
Qed.

Lemma issues_call (P : Call -> Prop) c r w :
  P (mkCall c r) -> issues P 1 w (record_call c r w).
Proof.
  intros HP. split; [reflexivity|]. exists [mkCall c r].
  repeat split; [simpl; lia|repeat constructor; exact HP].
Qed.

Lemma issues_trans P n m w1 w2 w3 :
  issues P n w1 w2 -> issues P m w2 w3 -> issues P (n + m) w1 w3.
Proof.
  intros (Hc1 & new1 & Hn1 & Hl1 & HP1) (Hc2 & new2 & Hn2 & Hl2 & HP2).
  split; [congruence|]. exists (new1 ++ new2). repeat split.
  - rewrite Hn2, Hn1, app_assoc. reflexivity.
  - rewrite length_app. lia.
  - apply Forall_app. split; assumption.
Qed.

Lemma issues_weaken (P Q : Call -> Prop) n m w w' :
  (forall c, P c -> Q c) -> n <= m -> issues P n w w' -> issues Q m w w'.
Proof.
  intros HPQ Hnm (Hc & new & Hn & Hl & HP).
  split; [exact Hc|]. exists new. repeat split; [exact Hn|lia|].
  eapply Forall_impl; eauto.
Qed.

(** The test [browse_call] only looks at the handles. *)
Lemma browse_call_clients w w' c :
  clients w' = clients w -> browse_call w' c -> browse_call w c.
Proof.
  unfold browse_call, routed, clients. intros [= He Hl]. rewrite He, Hl.
  exact id.
Qed.

(** The resolution asks ECS at most twice. *)
Lemma get_log_group_name_issues env cluster service w :
  issues (browse_call w) 2 w (get_log_group_name env cluster service w).2.
Proof.
  assert (Hcall : forall w0 r,
    ecs_client w0 = ecs_client w -> logs_client w0 = logs_client w ->
    is_log_request r = false -> is_redeploy r = false ->
    issues (browse_call w) 1 w0 (record_call (ecs_client w) r w0)).
  { intros w0 r _ _ Hlog Hre. apply issues_call.
    split; [unfold routed; simpl; rewrite Hlog; reflexivity|exact Hre]. }
  rewrite get_log_group_name_run. cbv zeta.
  set (r1 := DescribeServices cluster [service]).
  pose proof (Hcall w r1 eq_refl eq_refl eq_refl eq_refl) as H1.
  assert (H1' : issues (browse_call w) 2 w (record_call (ecs_client w) r1 w)).
  { apply (issues_weaken (browse_call w) (browse_call w) 1 2);
      [auto|lia|exact H1]. }
  destruct (respond env (calls w) (ecs_client w) r1) as [[|svc others]|e];
    try exact H1'.
  destruct (service_taskDefinition svc) as [td_name|]; [|exact H1'].
  pose proof (Hcall (record_call (ecs_client w) r1 w)
                (DescribeTaskDefinition td_name)
                eq_refl eq_refl eq_refl eq_refl) as H2.
  pose proof (issues_trans _ _ _ _ _ _ H1 H2) as H12.
  destruct (respond env _ (ecs_client w) (DescribeTaskDefinition td_name));
    exact H12.
Qed.

(** Writing to the log view issues nothing and rebinds nothing. *)
Lemma write_lines_frame {X} (f : World -> X) events :
  (forall l w, f (with_log_widget l w) = f w) ->
  respects (unchanged f)
    (for_each events (fun event =>
       line ← lift (getitem "message" (message event));
       log_write_line line)).
Proof.
  intros Hlog. unfold log_write_line. frame_steps; apply Hlog.
Qed.

(** The guarded fetch asks CloudWatch Logs at most twice. *)
Lemma fetch_logs_guarded_issues env g w :
  issues (browse_call w) 2 w (fetch_logs_guarded env g w).2.
Proof.
  assert (Hcall : forall w0 r,
    is_log_request r = true -> is_redeploy r = false ->
    issues (browse_call w) 1 w0 (record_call (logs_client w) r w0)).
  { intros w0 r Hlog Hre. apply issues_call.
    split; [unfold routed; simpl; rewrite Hlog; reflexivity|exact Hre]. }
  unfold fetch_logs_guarded, try_except. rewrite fetch_logs_run. cbv zeta.
  set (r1 := DescribeLogStreams g "LastEventTime" true 1).
  pose proof (Hcall w r1 eq_refl eq_refl) as H1.
  assert (H1' : issues (browse_call w) 2 w (record_call (logs_client w) r1 w)).
  { apply (issues_weaken (browse_call w) (browse_call w) 1 2);
      [auto|lia|exact H1]. }
  assert (Hlog : forall w0 l,
    issues (browse_call w) 2 w w0 ->
    issues (browse_call w) 2 w (with_log_widget l w0)).
  { intros w0 l H.
    replace 2 with (2 + 0) by lia.
    eapply issues_trans; [exact H|]. apply issues_same; reflexivity. }
  destruct (respond env (calls w) (logs_client w) r1) as [[|stream rest]|e].
  - apply Hlog, H1'.
  - destruct (logStreamName stream) as [name|]; [|apply Hlog, H1'].
    pose proof (Hcall (record_call (logs_client w) r1 w)
                  (GetLogEvents g name 100) eq_refl eq_refl) as H2.
    pose proof (issues_trans _ _ _ _ _ _ H1 H2) as H12. simpl in H12.
    destruct (respond env _ (logs_client w) (GetLogEvents g name 100))
      as [events|e]; [|apply Hlog, H12].
    set (w2 := record_call (logs_client w) (GetLogEvents g name 100)
                 (record_call (logs_client w) r1 w)) in *.
    pose proof (write_lines_frame (fun w => (clients w, calls w)) events
                  (fun _ _ => eq_refl) w2) as Hfr.
    unfold unchanged in Hfr.
    destruct (for_each events _ w2) as [[[]|e] w3]; cbn [fst snd] in Hfr |- *.
    + pose proof (f_equal fst Hfr) as Hc. pose proof (f_equal snd Hfr) as Hn.
      cbn [fst snd] in Hc, Hn.
      replace 2 with (2 + 0) by lia.
      eapply issues_trans; [exact H12|]. apply issues_same; assumption.
    + pose proof (f_equal fst Hfr) as Hc. pose proof (f_equal snd Hfr) as Hn.
      cbn [fst snd] in Hc, Hn. apply Hlog.
      replace 2 with (2 + 0) by lia.
      eapply issues_trans; [exact H12|]. apply issues_same; assumption.
  - apply Hlog, H1'.
Qed.

(** Opening a service asks at most four times, never for a
    redeployment. *)
Lemma load_logs_issues env w :
  issues (browse_call w) 4 w (load_logs env w).2.
Proof.
  rewrite load_logs_run.
  destruct (opt_truthy (selected_cluster w) && opt_truthy (selected_service w));
    [|apply issues_same; reflexivity].
  set (w0 := with_log_widget [] w).
  pose proof (get_log_group_name_issues env
                (default "" (selected_cluster w))
                (default "" (selected_service w)) w0) as H1.
  destruct (get_log_group_name env _ _ w0) as [[g|e] w1]; simpl in H1.
  - assert (Hc1 : clients w1 = clients w) by (destruct H1 as [H _]; exact H).
    assert (H1' : issues (browse_call w) 2 w w1).
    { destruct H1 as (Hc & new & Hn & Hl & HP). split; [exact Hc|].
      exists new. repeat split; assumption. }
    destruct (negb (str_truthy g)).
    + replace 4 with (2 + 2) by lia.
      eapply issues_trans; [exact H1'|]. apply issues_same; reflexivity.
    + replace 4 with (2 + 2) by lia.
      eapply issues_trans; [exact H1'|].
      apply (issues_weaken (browse_call w1) (browse_call w) 2 2);
        [|lia|apply fetch_logs_guarded_issues].
      intros c. apply browse_call_clients.
      rewrite Hc1. reflexivity.
  - destruct H1 as (Hc & new & Hn & Hl & HP). split; [exact Hc|].
    exists new. repeat split; [exact Hn|lia|exact HP].
Qed.

(** The requests of one event, as a list. *)
Lemma handle_issues env ev w :
  let w' := (handle env ev w).2 in
  exists new,
    calls w' = calls w ++ new /\
    List.length new <= 4 /\
    Forall (routed w') new /\
    (if is_click ev
     then new = [mkCall (ecs_client w)
                   (UpdateService (btn_cluster w) (btn_service w) true)]
     else Forall (fun c => is_redeploy (req c) = false) new).
Proof.
  destruct ev as [|val|[label|n|n]|]; cbn [handle is_click].
  - unfold on_mount. rewrite load_clusters_run. cbv zeta.
    exists [mkCall (ecs_client w) ListClusters].
    destruct (respond env (calls w) (ecs_client w) ListClusters);
      (repeat split; [simpl; lia|repeat constructor..]).
  - rewrite select_changed_run.
    destruct (valid_region_name env val).
    + rewrite load_clusters_run. cbv zeta.
      exists [mkCall (mkClient "ecs" val) ListClusters].
      destruct (respond env _ _ ListClusters);
        (repeat split; [simpl; lia|repeat constructor..]).
    + exists []. simpl. rewrite app_nil_r.
      repeat split; [lia|constructor..].
  - exists []. simpl. rewrite app_nil_r. repeat split; [lia|constructor..].
  - rewrite select_cluster_run, load_services_run. simpl.
    destruct (str_truthy n).
    + exists [mkCall (ecs_client w) (ListServices n)].
      destruct (respond env (calls w) (ecs_client w) (ListServices n));
        (repeat split; [simpl; lia|repeat constructor..]).
    + exists []. simpl. rewrite app_nil_r.
      repeat split; [lia|constructor..].
  - set (w0 := with_btn_service n (with_selected_service (Some n) w)).
    change (on_list_view_selected env (ECSServiceItem n) w)
      with (load_logs env w0).
    destruct (load_logs_issues env w0) as (Hc & new & Hn & Hl & HP).
    exists new. repeat split; [exact Hn|exact Hl| |].
    + eapply Forall_impl; [exact HP|]. intros c [Hr _].
      unfold routed, clients in *. injection Hc as -> ->. exact Hr.
    + eapply Forall_impl; [exact HP|]. intros c [_ Hre]. exact Hre.
  - rewrite on_click_run. cbv zeta.
    eexists. repeat split; [simpl; lia|repeat constructor].
Qed.

(** X12. The requests of one event.  Handling an event issues at most
    four requests; each goes out on the handle that is bound for its
    service when the handler ends (so the listing of a region switch
    already goes to the new region); a click issues exactly one request,
    the redeployment of what the button holds, and no other event ever
    issues a redeployment. *)
Theorem requests_of_one_event env ev w :
  let w' := (handle env ev w).2 in
  let new := drop (List.length (calls w)) (calls w') in
  calls w' = calls w ++ new /\
  List.length new <= 4 /\
  Forall (routed w') new /\
  (ev = Click ->
   new = [mkCall (ecs_client w)
            (UpdateService (btn_cluster w) (btn_service w) true)]) /\
  (ev <> Click -> Forall (fun c => is_redeploy (req c) = false) new).
Proof.
  intros w' new.
  destruct (handle_issues env ev w) as (new' & Hn & Hl & Hr & Hk).
  fold w' in Hn, Hr.
  assert (Hnew : new = new').
  { subst new. rewrite Hn, drop_app_length. reflexivity. }
  rewrite Hnew. repeat split; try assumption.
  - intros ->. exact Hk.
  - intros Hev. destruct ev; try exact Hk. contradiction.
Qed.

(** A switch to [eu-west-1] lists on the new handle, a click on the open
    service redeploys it. *)
Lemma requests_of_one_event_witness :
  Forall (routed (handle Demo.env (SelectChanged "eu-west-1") initial).2)
    (drop 0 (calls (handle Demo.env (SelectChanged "eu-west-1") initial).2))
  /\
  drop (List.length (calls initial)) (calls (handle Demo.env Click initial).2)
    = [mkCall (mkClient "ecs" "us-east-1") (UpdateService "" "" true)].
Proof.
  split.
  - exact (proj1 (proj2 (proj2
      (requests_of_one_event Demo.env (SelectChanged "eu-west-1") initial)))).
  - exact (proj1 (proj2 (proj2 (proj2
      (requests_of_one_event Demo.env Click initial)))) eq_refl).
Defined.

(** X13. In every state of the session, every request issued so far went
    to a client of the right service: the CloudWatch Logs operations to a
    ["logs"] client, all others to an ["ecs"] client. *)
Theorem requests_reach_their_service env w :
  reachable env w ->
  Forall (fun c =>
            service_name (via c)
            = if is_log_request (req c) then "logs" else "ecs")
    (calls w).
Proof.
  intros Hw.
  enough (H : same_region w /\
              Forall (fun c => service_name (via c)
                       = if is_log_request (req c) then "logs" else "ecs")
                (calls w)) by (destruct H as [_ H]; exact H).
  revert w Hw. apply reachable_invariant.
  - split; [exists "us-east-1"; split; reflexivity|constructor].
  - intros ev w [Hsame Hcalls].
    pose proof (handle_same_region env ev w Hsame) as Hsame'.
    split; [exact Hsame'|].
    destruct (handle_issues env ev w) as (new & -> & _ & Hr & _).
    apply Forall_app. split; [exact Hcalls|].
    destruct Hsame' as (region & He & Hl).
    eapply Forall_impl; [exact Hr|]. intros c Hc. unfold routed in Hc.
    rewrite Hc, He, Hl. destruct (is_log_request (req c)); reflexivity.
Qed.

Lemma requests_reach_their_service_witness :
  let w := (run Demo.env
              [ Mount; ListViewSelected (ECSClusterItem "api-cluster");
                ListViewSelected (ECSServiceItem "web"); Click ]
              initial).2 in
  reachable Demo.env w /\
  Forall (fun c =>
            service_name (via c)
            = if is_log_request (req c) then "logs" else "ecs")
    (calls w).
Proof.
  intros w.
  assert (Hw : reachable Demo.env w).
  { exists [ Mount; ListViewSelected (ECSClusterItem "api-cluster");
             ListViewSelected (ECSServiceItem "web"); Click ].
    reflexivity. }
  split; [exact Hw|]. exact (requests_reach_their_service Demo.env w Hw).
Defined.

Lemma redeploys_app cs1 cs2 :
  redeploys (cs1 ++ cs2) = redeploys cs1 + redeploys cs2.
Proof. unfold redeploys. rewrite List.filter_app, length_app. reflexivity. Qed.

Lemma redeploys_none cs :
  Forall (fun c => is_redeploy (req c) = false) cs -> redeploys cs = 0.
Proof.
  unfold redeploys. induction 1 as [|c cs Hc _ IH]; simpl; [reflexivity|].
  rewrite Hc. exact IH.
Qed.

(** One event adds one redeployment if it is a click, none otherwise. *)
Lemma handle_redeploys env ev w :
  redeploys (calls (handle env ev w).2)
  = redeploys (calls w) + (if is_click ev then 1 else 0).
Proof.
  destruct (handle_issues env ev w) as (new & -> & _ & _ & Hk).
  rewrite redeploys_app. f_equal.
  destruct (is_click ev); [rewrite Hk; reflexivity|].
  apply redeploys_none, Hk.
Qed.

(** X14. Redeployments follow clicks.  Over any sequence of events the
    session never issues more redeployment requests than there were
    clicks on the button, and a session that handled all its events
    without an exception issued exactly one per click. *)
Theorem redeploys_match_clicks env evs w :
  let out := run env evs w in
  redeploys (calls out.2) <= redeploys (calls w) + clicks evs /\
  (out.1 = Ok tt ->
   redeploys (calls out.2) = redeploys (calls w) + clicks evs).
Proof.
  revert w. induction evs as [|ev evs IH]; intros w.
  - simpl. split; [unfold clicks; simpl; lia|].
    intros _. unfold clicks. simpl. lia.
  - pose proof (handle_redeploys env ev w) as Hstep.
    assert (Hcl : clicks (ev :: evs)
                  = (if is_click ev then 1 else 0) + clicks evs).
    { unfold clicks. simpl. destruct (is_click ev); reflexivity. }
    cbv zeta. unfold run. simpl. unfold bind. fold (run env evs).
    destruct (handle env ev w) as [[[]|e] w1]; simpl in Hstep |- *.
    + destruct (IH w1) as [Hle Heq]. split.
      * rewrite Hcl. lia.
      * intros Hok. rewrite (Heq Hok), Hcl. lia.
    + split; [rewrite Hcl; lia|discriminate].
Qed.

(** Browsing, then two clicks: two redeployments. *)
Lemma redeploys_match_clicks_witness :
  let evs := [ Mount; ListViewSelected (ECSClusterItem "api-cluster");
               ListViewSelected (ECSServiceItem "web"); Click; Click ] in
  (run Demo.env evs initial).1 = Ok tt /\
  redeploys (calls (run Demo.env evs initial).2) = 2.
Proof.
  intros evs.
  assert (Hok : (run Demo.env evs initial).1 = Ok tt).
  { vm_compute. reflexivity. }
  split; [exact Hok|].
  exact (proj2 (redeploys_match_clicks Demo.env evs initial) Hok).
Defined.
